(** * Enzyme predictability atlas: the ENZYME / UniProt ingestion pipeline

  A shallow embedding of the parsing stage of the repository
  ([src/parsing/*.py]) and the properties its specification states.

  Text is modelled as [string] over 8-bit code points (the ENZYME flat
  file is ASCII; the character classes below follow Python's [str] and
  [re] on the code points 0..255).  A pandas table is modelled as an
  ordered list of rows; a missing value ([None], [NaN], [pd.NA]) is the
  [None] of an [option]. *)

From Stdlib Require Import Ascii String.
From stdpp Require Import base option list strings sorting gmap.

(** ** Python's string primitives *)

Module PyStr.

Definition code (c : ascii) : nat := nat_of_ascii c.

Definition between (lo hi n : nat) : bool := (lo <=? n) && (n <=? hi).

(** [str.isspace], the set used by [str.strip()] and [str.split()]. *)
Definition is_space (c : ascii) : bool :=
  let n := code c in
  between 9 13 n || between 28 32 n || (n =? 133) || (n =? 160).

(** The class [[A-Z0-9]] of the accession pattern. *)
Definition is_upper_digit (c : ascii) : bool :=
  let n := code c in between 48 57 n || between 65 90 n.

(** [str.isalnum] on one character. *)
Definition is_alnum (c : ascii) : bool :=
  let n := code c in
  between 48 57 n || between 65 90 n || between 97 122 n
  || (n =? 170) || between 178 179 n || (n =? 181) || between 185 186 n
  || between 188 190 n || between 192 214 n || between 216 246 n
  || between 248 255 n.

(** The class [\w] of [re] on [str] patterns: alphanumerics and [_]. *)
Definition is_word (c : ascii) : bool := is_alnum c || (code c =? 95).

Definition newline : ascii := ascii_of_nat 10.
Definition comma : ascii := ascii_of_nat 44.

Definition chars (s : string) : list ascii := list_ascii_of_string s.
Definition str (l : list ascii) : string := string_of_list_ascii l.

Fixpoint dropwhile (p : ascii -> bool) (l : list ascii) : list ascii :=
  match l with
  | [] => []
  | c :: r => if p c then dropwhile p r else l
  end.

Definition rdropwhile (p : ascii -> bool) (l : list ascii) : list ascii :=
  rev (dropwhile p (rev l)).

(** [s.rstrip("\n")] *)
Definition rstrip_newline (s : string) : string :=
  str (rdropwhile (fun c => bool_decide (c = newline)) (chars s)).

(** [s.strip()] *)
Definition strip (s : string) : string :=
  str (rdropwhile is_space (dropwhile is_space (chars s))).

(** [s[:n]] and [s[n:]] for a non-negative literal [n]. *)
Definition slice_to (n : nat) (s : string) : string := str (take n (chars s)).
Definition slice_from (n : nat) (s : string) : string := str (drop n (chars s)).

Definition emit (cur : list ascii) : list (list ascii) :=
  match cur with [] => [] | _ => [cur] end.

(** The maximal runs of characters satisfying [p], in order of
    appearance; [cur] is the run being read. *)
Fixpoint runs_from (p : ascii -> bool) (cur l : list ascii) : list (list ascii) :=
  match l with
  | [] => emit cur
  | c :: r => if p c then runs_from p (cur ++ [c]) r
              else emit cur ++ runs_from p [] r
  end.

Definition runs (p : ascii -> bool) (l : list ascii) : list (list ascii) :=
  runs_from p [] l.

(** [s.split()]: the maximal runs of non-whitespace characters. *)
Definition split (s : string) : list string :=
  str <$> runs (fun c => negb (is_space c)) (chars s).

(** [s.split(sep)] for a one-character separator: empty pieces are kept. *)
Fixpoint split_on_from (sep : ascii) (cur l : list ascii) : list (list ascii) :=
  match l with
  | [] => [cur]
  | c :: r => if bool_decide (c = sep) then cur :: split_on_from sep [] r
              else split_on_from sep (cur ++ [c]) r
  end.

Definition split_on (sep : ascii) (s : string) : list string :=
  str <$> split_on_from sep [] (chars s).

(** [sep.join(l)] *)
Definition join (sep : string) (l : list string) : string := String.concat sep l.

(** [s.startswith(p)] *)
Definition startswith (p s : string) : bool := String.prefix p s.

(** [s or None] *)
Definition or_none (s : string) : option string :=
  if bool_decide (s = "") then None else Some s.

End PyStr.

(** ** The regular expression of the accession scan *)

Module Regex.
Import PyStr.

Definition is_word_at (c : option ascii) : bool :=
  match c with Some c => is_word c | None => false end.

(** [\b] between a position's left neighbour and its right neighbour
    (absent at the ends of the text). *)
Definition word_boundary (prev next : option ascii) : bool :=
  xorb (is_word_at prev) (is_word_at next).

(** [\b([A-Z0-9]{6})\b] tried at the position whose left neighbour is
    [prev] and whose remaining text is [l]. *)
Definition match_at (prev : option ascii) (l : list ascii) : bool :=
  word_boundary prev (head l)
  && (length (take 6 l) =? 6) && forallb is_upper_digit (take 6 l)
  && word_boundary (l !! 5) (l !! 6).

(** [re.findall]: scan left to right; after a match at a position the
    scan resumes behind the match ([skip] counts the characters of the
    match still to be stepped over). *)
Fixpoint findall_from (prev : option ascii) (skip : nat) (l : list ascii)
  : list (list ascii) :=
  match l with
  | [] => []
  | c :: r =>
      match skip with
      | S k => findall_from (Some c) k r
      | O => if match_at prev l
             then take 6 l :: findall_from (Some c) 5 r
             else findall_from (Some c) 0 r
      end
  end.

(** [re.findall(r"\b([A-Z0-9]{6})\b", content)] *)
Definition findall_accession (content : string) : list string :=
  str <$> findall_from None 0 (chars content).

End Regex.

(** ** The accession scan in terms of tokens *)

Module Tokens.
Import PyStr.

(** The shape of an accession: six characters of [[A-Z0-9]]. *)
Definition shape6 (t : list ascii) : bool :=
  (length t =? 6) && forallb is_upper_digit t.

Definition not_pattern_id (acc : string) : Prop := startswith "PS" acc = false.

#[global] Instance not_pattern_id_dec acc : Decision (not_pattern_id acc).
Proof. unfold not_pattern_id. apply _. Defined.

(** The accessions of a [DR] line when tokens are delimited by the
    characters that are not [p]-characters: the maximal [p]-runs of
    accession shape, without those that start with ["PS"]. *)
Definition accessions_between (p : ascii -> bool) (content : string) : list string :=
  filter not_pattern_id (str <$> filter (fun t => shape6 t = true) (runs p (chars content))).

(** The specification's reading: runs of six characters of [[A-Z0-9]]
    whose neighbours are not alphanumeric. *)
Definition claimed_accessions (content : string) : list string :=
  accessions_between is_alnum content.

End Tokens.

(** ** The record parser, [parse_enzyme_core.py] *)

Module Parser.
Import PyStr.

(** The accumulator [current]. *)
Record current := Current {
  EC_number : option string;
  Enzyme_name : list string;
  Alt_names : list string;
  Reaction : list string;
  Prosite_refs : list string;
  UniProt_IDs : list string
}.

(** A dictionary appended to [rows]. *)
Record row := Row {
  row_EC_number : option string;
  row_Enzyme_name : option string;
  row_Alt_names : option string;
  row_Reaction : option string;
  row_Prosite_refs : option string;
  row_UniProt_IDs : option string
}.

Definition state : Type := current * list row.

Definition fresh : current := Current None [] [] [] [] [].

Definition init : state := (fresh, []).

Definition flush_entry (st : state) : state :=
  let '(cur, rows) := st in
  match EC_number cur with
  | None => st
  | Some _ =>
      (fresh,
       rows ++ [Row (EC_number cur)
                    (or_none (join " " (Enzyme_name cur)))
                    (or_none (join " " (Alt_names cur)))
                    (or_none (join " " (Reaction cur)))
                    (or_none (join "; " (Prosite_refs cur)))
                    (or_none (join "," (UniProt_IDs cur)))])
  end.

Definition set_EC_number (v : option string) (c : current) : current :=
  Current v (Enzyme_name c) (Alt_names c) (Reaction c) (Prosite_refs c) (UniProt_IDs c).
Definition add_Enzyme_name (v : string) (c : current) : current :=
  Current (EC_number c) (Enzyme_name c ++ [v]) (Alt_names c) (Reaction c)
          (Prosite_refs c) (UniProt_IDs c).
Definition add_Alt_names (v : string) (c : current) : current :=
  Current (EC_number c) (Enzyme_name c) (Alt_names c ++ [v]) (Reaction c)
          (Prosite_refs c) (UniProt_IDs c).
Definition add_Reaction (v : string) (c : current) : current :=
  Current (EC_number c) (Enzyme_name c) (Alt_names c) (Reaction c ++ [v])
          (Prosite_refs c) (UniProt_IDs c).
Definition add_Prosite_refs (v : string) (c : current) : current :=
  Current (EC_number c) (Enzyme_name c) (Alt_names c) (Reaction c)
          (Prosite_refs c ++ [v]) (UniProt_IDs c).
Definition add_UniProt_IDs (v : list string) (c : current) : current :=
  Current (EC_number c) (Enzyme_name c) (Alt_names c) (Reaction c)
          (Prosite_refs c) (UniProt_IDs c ++ v).

(** The accessions one [DR] line appends. *)
Definition dr_accessions (content : string) : list string :=
  filter (fun acc => negb (startswith "PS" acc) = true)
         (Regex.findall_accession content).

Definition line_code (line : string) : string := slice_to 2 (rstrip_newline line).
Definition line_content (line : string) : string :=
  strip (slice_from 5 (rstrip_newline line)).

(** The body of the loop over the lines of the file. *)
Definition step (st : state) (line0 : string) : state :=
  let line := rstrip_newline line0 in
  if bool_decide (line = "") then st
  else
    let code := slice_to 2 line in
    let content := strip (slice_from 5 line) in
    if bool_decide (code = "ID") then
      let '(cur, rows) :=
        match EC_number st.1 with Some _ => flush_entry st | None => st end in
      (set_EC_number (head (split content)) cur, rows)
    else if bool_decide (code = "DE") then (add_Enzyme_name content st.1, st.2)
    else if bool_decide (code = "AN") then (add_Alt_names content st.1, st.2)
    else if bool_decide (code = "CA") then (add_Reaction content st.1, st.2)
    else if bool_decide (code = "PR") then (add_Prosite_refs content st.1, st.2)
    else if bool_decide (code = "DR") then
      (add_UniProt_IDs (dr_accessions content) st.1, st.2)
    else if bool_decide (code = "//") then flush_entry st
    else st.

(** [parse_enzyme_dat], on the lines the file yields. *)
Definition parse_enzyme_dat (lines : list string) : list row :=
  (flush_entry (fold_left step lines init)).2.

End Parser.

(** ** Tables *)

Module Pandas.

(** A cell of a table; [None] is the missing value. *)
Definition cell : Type := option string.

(** Exceptions the modelled calls raise. *)
Inductive exn := ValueError | KeyError | InvalidIndexError | ParserError.

Inductive res (A : Type) := Ok (a : A) | Raise (e : exn).
Arguments Ok {A} a.
Arguments Raise {A} e.

Definition bind {A B} (m : res A) (k : A -> res B) : res B :=
  match m with Ok a => k a | Raise e => Raise e end.

(** [keep="first"] deduplication on a key. *)
Fixpoint drop_dup_from {A K} `{EqDecision K} (key : A -> K) (seen : list K)
    (l : list A) : list A :=
  match l with
  | [] => []
  | x :: r => if bool_decide (key x ∈ seen) then drop_dup_from key seen r
              else x :: drop_dup_from key (key x :: seen) r
  end.

Definition drop_dup_by {A K} `{EqDecision K} (key : A -> K) (l : list A) : list A :=
  drop_dup_from key [] l.

(** [left.merge(right, on=key, how="left")]: the rows of [left] in order,
    each paired with every row of [right] that has its key, or with
    missing values when there is none. *)
Definition left_join {L R K O} `{EqDecision K} (key_l : L -> K) (key_r : R -> K)
    (combine : L -> option R -> O) (left : list L) (right : list R) : list O :=
  flat_map (fun l =>
    match filter (fun r => key_r r = key_l l) right with
    | [] => [combine l None]
    | ms => (fun r => combine l (Some r)) <$> ms
    end) left.

(** A [DataFrame] whose column labels are only known at run time: the
    labels in order (repetitions are possible) and the rows, one cell
    per label. *)
Record DataFrame := Frame { columns : list string; data : list (list cell) }.

(** [pd.DataFrame()] *)
Definition empty_frame : DataFrame := Frame [] [].

(** [df.empty] *)
Definition is_empty (df : DataFrame) : bool :=
  bool_decide (columns df = []) || bool_decide (data df = []).

(** [df.rename(columns={old: new}, inplace=True)] *)
Definition rename (old new : string) (df : DataFrame) : DataFrame :=
  Frame ((fun c => if bool_decide (c = old) then new else c) <$> columns df) (data df).

(** [df[col] = pd.NA] for a label [col] that is not a column yet. *)
Definition add_na_column (col : string) (df : DataFrame) : DataFrame :=
  Frame (columns df ++ [col]) ((fun r => r ++ [None]) <$> data df).

(** The cells of [r] under the columns labelled [label]. *)
Fixpoint pick (label : string) (cols : list string) (r : list cell) : list cell :=
  match cols, r with
  | c :: cols', v :: r' =>
      if bool_decide (c = label) then v :: pick label cols' r' else pick label cols' r'
  | _, _ => []
  end.

(** [df[labels]]: for each label in turn, every column that carries it. *)
Definition select (labels : list string) (df : DataFrame) : res DataFrame :=
  if bool_decide (Forall (fun l => l ∈ columns df) labels) then
    Ok (Frame (flat_map (fun l => filter (fun c => c = l) (columns df)) labels)
              ((fun r => flat_map (fun l => pick l (columns df) r) labels) <$> data df))
  else Raise KeyError.

(** The cell of [r] under the first column labelled [label]. *)
Definition lookup_cell (label : string) (cols : list string) (r : list cell) : cell :=
  default None (head (pick label cols r)).

(** [pd.concat(dfs, ignore_index=True)]: frames with the same labels are
    stacked; otherwise the labels are united in order of appearance and
    absent cells are missing, which pandas refuses when a frame to be
    realigned repeats a label. *)
Definition concat (dfs : list DataFrame) : res DataFrame :=
  match dfs with
  | [] => Raise ValueError
  | d :: _ =>
      if bool_decide (Forall (fun d' => columns d' = columns d) dfs) then
        Ok (Frame (columns d) (flat_map data dfs))
      else if bool_decide (Forall (fun d' => NoDup (columns d')) dfs) then
        let cols := drop_dup_by id (flat_map columns dfs) in
        Ok (Frame cols
              (flat_map (fun d' =>
                 (fun r => (fun l => lookup_cell l (columns d') r) <$> cols) <$> data d')
                 dfs))
      else Raise InvalidIndexError
  end.

(** [df.drop_duplicates(subset=labels)] *)
Definition drop_duplicates (labels : list string) (df : DataFrame) : res DataFrame :=
  if bool_decide (Forall (fun l => l ∈ columns df) labels) then
    Ok (Frame (columns df)
          (drop_dup_by (fun r => flat_map (fun l => pick l (columns df) r) labels)
             (data df)))
  else Raise KeyError.

End Pandas.

(** ** The pair expander, [explode_uniprot_ids.py] *)

Module Expander.
Import PyStr Pandas.

(** The two columns of the input table the function reads. *)
Record raw := Raw { raw_EC_number : cell; raw_UniProt_IDs : cell }.

#[global] Instance raw_eq_dec : EqDecision raw.
Proof. solve_decision. Defined.

(** A row of the pair table. *)
Record pair := Pair { EC_number : cell; UniProt_ID : cell }.

#[global] Instance pair_eq_dec : EqDecision pair.
Proof. solve_decision. Defined.

(** [fillna("").astype(str)] and the comprehension
    [[x for x in s.split(",") if x.strip()]]. *)
Definition id_list (ids : cell) : list string :=
  filter (fun x => strip x <> "") (split_on comma (default "" ids)).

(** [df.explode]: one row per element, one row with a missing value for
    an empty list. *)
Definition explode (r : raw) : list pair :=
  match id_list (raw_UniProt_IDs r) with
  | [] => [Pair (raw_EC_number r) None]
  | ids => (fun x => Pair (raw_EC_number r) (Some x)) <$> ids
  end.

Definition explode_uniprot_ids (df : list raw) : list pair :=
  let exploded := flat_map explode df in
  let exploded :=
    filter (fun p => UniProt_ID p <> None /\ UniProt_ID p <> Some "") exploded in
  drop_dup_by id exploded.

End Expander.

(** ** The pieces of an accession text, as the specification words them *)

Module ExpanderSpec.
Import PyStr.


End ExpanderSpec.

(** ** The reconciler, [find_missing_uniprot_ids.py] *)

Module Reconciler.
Import Pandas.

(** Python's order on [str]: lexicographic on code points. *)
Definition str_le (a b : string) : Prop := String.leb a b = true.

#[global] Instance str_le_dec : RelDecision str_le.
Proof. intros a b. unfold str_le. apply _. Defined.

(** [sorted(l)] on strings. *)
Definition sorted (l : list string) : list string := merge_sort str_le l.

(** [sorted(all_ids - got_ids)] *)
Definition missing (requested retrieved : gset string) : list string :=
  sorted (elements (requested ∖ retrieved)).

End Reconciler.

(** ** The batch fetcher, [download_uniprot.py] *)

Module Fetcher.
Import PyStr Pandas.

(** [range(0, stop, step)] *)
Definition range0 (stop : nat) (step : Z) : res (list nat) :=
  if bool_decide (step = 0%Z) then Raise ValueError
  else if bool_decide (step < 0)%Z then Ok []
  else let k := Z.to_nat step in
       Ok ((fun j => j * k) <$> seq 0 ((stop + k - 1) `div` k)).

Definition chunk_list (items : list string) (chunk_size : Z)
  : res (list (list string)) :=
  bind (range0 (length items) chunk_size) (fun starts =>
  Ok ((fun i => take (Z.to_nat chunk_size) (drop i items)) <$> starts)).

Definition build_accession_query (accessions : list string) : string :=
  join " OR " ((fun acc => "accession:" +:+ acc) <$> accessions).

(** What [requests.get] does: it raises, or returns a response with a
    status code and a body. *)
Inductive http_outcome :=
| RequestError
| Response (status_code : Z) (text : string).

Definition rename_map : list (string * string) :=
  [("Entry", "UniProt_ID");
   ("Accession", "UniProt_ID");
   ("Organism", "Organism");
   ("Organism (scientific name)", "Organism");
   ("Organism [Organism]", "Organism");
   ("Protein names", "Protein_name");
   ("Protein name", "Protein_name");
   ("Gene Names", "Gene_name");
   ("Gene Names (primary)", "Gene_name");
   ("Gene Names (primary name)", "Gene_name");
   ("Sequence", "Sequence");
   ("Length", "Length")].

Definition expected : list string :=
  ["UniProt_ID"; "Sequence"; "Length"; "Organism"; "Protein_name"; "Gene_name"].

(** The first loop: rename every known label that is present. *)
Definition rename_known (df : DataFrame) : DataFrame :=
  fold_left (fun df '(old, new) =>
               if bool_decide (old ∈ columns df) then rename old new df else df)
            rename_map df.

(** The second loop: add a column of missing values for every expected
    label that is absent. *)
Definition add_step (df : DataFrame) (col : string) : DataFrame :=
  if bool_decide (col ∈ columns df) then df else add_na_column col df.

Definition add_missing (df : DataFrame) : DataFrame :=
  fold_left add_step expected df.

(** Lines 79-103 of [fetch_uniprot_batch]. *)
Definition normalize (df : DataFrame) : res DataFrame :=
  select expected (add_missing (rename_known df)).

(** The label a column of a response carries after the renaming loop. *)
Definition canon (label : string) : string :=
  fold_left (fun c '(old, new) => if bool_decide (c = old) then new else c)
            rename_map label.

(** Every row of a frame has one cell per column. *)
Definition frame_ok (df : DataFrame) : Prop :=
  Forall (fun r => length r = length (columns df)) (data df).

(** No canonical field is carried by two columns of the response. *)
Definition unambiguous (df : DataFrame) : Prop :=
  Forall (fun e => length (filter (fun c => canon c = e) (columns df)) <= 1) expected.

(** A frame as the loop appends it: the canonical columns, well shaped. *)
Definition canonical (df : DataFrame) : Prop := columns df = expected /\ frame_ok df.

(** The accession of a row of a frame with the canonical columns. *)
Definition accession_of (r : list cell) : cell := lookup_cell "UniProt_ID" expected r.

Section Service.

(** The lookup service: the outcome of the request that carries a given
    query (the other parameters of the request are constants), and
    [pd.read_csv] on a response body.  Within one run no query is sent
    twice: the chunks partition a duplicate-free list. *)
Variable http_get : string -> http_outcome.
Variable read_csv : string -> res DataFrame.

Definition fetch_uniprot_batch (accessions : list string) : res DataFrame :=
  if bool_decide (accessions = []) then Ok empty_frame
  else
    match http_get (build_accession_query accessions) with
    | RequestError => Ok empty_frame
    | Response status_code text =>
        if bool_decide (status_code <> 200%Z) then Ok empty_frame
        else
          let text := strip text in
          if bool_decide (text = "") then Ok empty_frame
          else bind (read_csv text) normalize
    end.

(** The three outcomes of a chunk that are not a table: a transport
    error, a status other than 200, a body that is blank. *)
Definition chunk_fails (accessions : list string) : Prop :=
  match http_get (build_accession_query accessions) with
  | RequestError => True
  | Response status_code text => status_code <> 200%Z \/ strip text = ""
  end.

#[global] Instance chunk_fails_dec accessions : Decision (chunk_fails accessions).
Proof. unfold chunk_fails. destruct (http_get _); apply _. Defined.

(** The loop over the chunks: the list [all_dfs] it builds. *)
Fixpoint fetch_all (chunks : list (list string)) : res (list DataFrame) :=
  match chunks with
  | [] => Ok []
  | chunk :: rest =>
      bind (fetch_uniprot_batch chunk) (fun df_chunk =>
      bind (fetch_all rest) (fun all_dfs =>
      Ok (if is_empty df_chunk then all_dfs else df_chunk :: all_dfs)))
  end.

(** What follows the loop: no table when nothing was fetched, otherwise
    the stacked frames without repeated accessions. *)
Definition collect (all_dfs : list DataFrame) : res (option DataFrame) :=
  match all_dfs with
  | [] => Ok None
  | _ => bind (concat all_dfs) (fun df =>
         bind (drop_duplicates ["UniProt_ID"] df) (fun df_all => Ok (Some df_all)))
  end.

(** [download_uniprot_batch] on the [UniProt_ID] column of the pair
    table; the result is the table written to the output file, if any. *)
Definition download_uniprot_batch (uniprot_id : list cell) (chunk_size : Z)
  : res (option DataFrame) :=
  let unique_ids := Reconciler.sorted (drop_dup_by id (omap id uniprot_id)) in
  bind (chunk_list unique_ids chunk_size) (fun chunks =>
  bind (fetch_all chunks) collect).

End Service.

End Fetcher.

(** ** The outcome of a chunk that is a table *)

Module FetcherSpec.
Import PyStr Pandas Fetcher.

Section Service.
Variable http_get : string -> http_outcome.
Variable read_csv : string -> res DataFrame.

(** A chunk that succeeds with [table]: it is not empty, the service
    answers its query with status 200 and a body that is not blank, the
    body parses, and [table] is the parsed table brought to the
    canonical columns. *)
Definition chunk_yields (chunk : list string) (table : DataFrame) : Prop :=
  chunk <> []
  /\ exists text df,
       http_get (build_accession_query chunk) = Response 200 text
       /\ strip text <> ""
       /\ read_csv (strip text) = Ok df
       /\ normalize df = Ok table.

End Service.

End FetcherSpec.

(** ** The merger, [merge_enzyme_uniprot.py] *)

Module Merger.
Import Pandas.

(** The columns of [ec_meta]. *)
Record meta := Meta {
  meta_EC_number : cell;
  meta_Enzyme_name : cell;
  meta_Alt_names : cell;
  meta_Reaction : cell;
  meta_Prosite_refs : cell
}.

#[global] Instance meta_eq_dec : EqDecision meta.
Proof. solve_decision. Defined.

(** A row of the sequence table. *)
Record uniprot := Uniprot {
  UniProt_ID : cell;
  Sequence : cell;
  Length : cell;
  Organism : cell;
  Protein_name : cell;
  Gene_name : cell
}.

(** A row of the pair table after the first join. *)
Record with_meta := WithMeta {
  wm_pair : Expander.pair;
  wm_Enzyme_name : cell;
  wm_Alt_names : cell;
  wm_Reaction : cell;
  wm_Prosite_refs : cell
}.

(** A row of the master table. *)
Record master := Master {
  m_EC_number : cell;
  m_UniProt_ID : cell;
  m_Enzyme_name : cell;
  m_Alt_names : cell;
  m_Reaction : cell;
  m_Prosite_refs : cell;
  m_Sequence : cell;
  m_Length : cell;
  m_Organism : cell;
  m_Protein_name : cell;
  m_Gene_name : cell
}.

(** [enzyme_raw[[...]]] *)
Definition to_meta (r : Parser.row) : meta :=
  Meta (Parser.row_EC_number r) (Parser.row_Enzyme_name r) (Parser.row_Alt_names r)
       (Parser.row_Reaction r) (Parser.row_Prosite_refs r).

Definition add_meta (p : Expander.pair) (m : option meta) : with_meta :=
  WithMeta p (m ≫= meta_Enzyme_name) (m ≫= meta_Alt_names)
           (m ≫= meta_Reaction) (m ≫= meta_Prosite_refs).

Definition add_uniprot (w : with_meta) (u : option uniprot) : master :=
  Master (Expander.EC_number (wm_pair w)) (Expander.UniProt_ID (wm_pair w))
         (wm_Enzyme_name w) (wm_Alt_names w) (wm_Reaction w) (wm_Prosite_refs w)
         (u ≫= Sequence) (u ≫= Length) (u ≫= Organism)
         (u ≫= Protein_name) (u ≫= Gene_name).

(** [df["Sequence"].notna() & (df["Sequence"].astype(str) != "")] *)
Definition has_sequence (r : master) : Prop :=
  m_Sequence r <> None /\ m_Sequence r <> Some "".

#[global] Instance has_sequence_dec r : Decision (has_sequence r).
Proof. unfold has_sequence. apply _. Defined.

(** The two merges. *)
Definition join_tables (enzyme_raw : list Parser.row)
    (pairs : list Expander.pair) (uniprot_rows : list uniprot) : list master :=
  let ec_meta := drop_dup_by id (to_meta <$> enzyme_raw) in
  let df := left_join Expander.EC_number meta_EC_number add_meta pairs ec_meta in
  left_join (fun w => Expander.UniProt_ID (wm_pair w)) UniProt_ID
            add_uniprot df uniprot_rows.

Definition merge_enzyme_uniprot (enzyme_raw : list Parser.row)
    (pairs : list Expander.pair) (uniprot_rows : list uniprot) : list master :=
  let df := join_tables enzyme_raw pairs uniprot_rows in
  filter has_sequence df.

(** The metadata the first merge attaches to a pair: those of a row of
    the classification table with the id of the pair, or none when no
    row has it. *)
Definition meta_for (enzyme_raw : list Parser.row) (p : Expander.pair)
    (m : option meta) : Prop :=
  (exists e, e ∈ enzyme_raw /\ Parser.row_EC_number e = Expander.EC_number p
             /\ m = Some (to_meta e))
  \/ ((forall e, e ∈ enzyme_raw -> Parser.row_EC_number e <> Expander.EC_number p)
      /\ m = None).

(** The sequence row the second merge attaches to a pair. *)
Definition uniprot_for (uniprot_rows : list uniprot) (p : Expander.pair)
    (u : option uniprot) : Prop :=
  (exists x, x ∈ uniprot_rows /\ UniProt_ID x = Expander.UniProt_ID p /\ u = Some x)
  \/ ((forall x, x ∈ uniprot_rows -> UniProt_ID x <> Expander.UniProt_ID p)
      /\ u = None).

End Merger.

(** ** The joined table, as the specification words it *)

Module MergerSpec.
Import Pandas Merger.

(** What a left join attaches to a row: every row of the other table
    that satisfies [P], in order, or a single missing row when none
    does. *)
Definition matches_or_none {A} (P : A -> Prop) `{forall x, Decision (P x)}
    (l : list A) : list (option A) :=
  match filter P l with
  | [] => [None]
  | ms => Some <$> ms
  end.

(** The metadata columns of a classification row. *)
Definition meta_key (e : Parser.row) : cell * cell * cell * cell * cell :=
  (Parser.row_EC_number e, Parser.row_Enzyme_name e, Parser.row_Alt_names e,
   Parser.row_Reaction e, Parser.row_Prosite_refs e).

(** The row of the joined table for a pair, a classification row (if
    any) and a sequence row (if any), field by field. *)
Definition master_row (p : Expander.pair) (e : option Parser.row)
    (u : option uniprot) : master :=
  Master (Expander.EC_number p) (Expander.UniProt_ID p)
         (e ≫= Parser.row_Enzyme_name) (e ≫= Parser.row_Alt_names)
         (e ≫= Parser.row_Reaction) (e ≫= Parser.row_Prosite_refs)
         (u ≫= Sequence) (u ≫= Length) (u ≫= Organism)
         (u ≫= Protein_name) (u ≫= Gene_name).

(** The joined table: for every pair in order, for every classification
    row with its id that differs in metadata from the ones before (or
    once with missing metadata when there is none), for every sequence
    row with its accession (or once with missing sequence data when
    there is none), one row. *)
Definition joined_rows (enzyme_raw : list Parser.row)
    (pairs : list Expander.pair) (uniprot_rows : list uniprot) : list master :=
  flat_map (fun p =>
    flat_map (fun e =>
      master_row p e
        <$> matches_or_none (fun u => UniProt_ID u = Expander.UniProt_ID p)
              uniprot_rows)
      (matches_or_none (fun e => Parser.row_EC_number e = Expander.EC_number p)
         (drop_dup_by meta_key enzyme_raw)))
    pairs.

(** The classification row whose metadata a pair receives. *)
Definition meta_match (enzyme_raw : list Parser.row) (p : Expander.pair)
    (e : option Parser.row) : Prop :=
  (exists e0, e0 ∈ enzyme_raw
      /\ Parser.row_EC_number e0 = Expander.EC_number p /\ e = Some e0)
  \/ ((forall e0, e0 ∈ enzyme_raw ->
         Parser.row_EC_number e0 <> Expander.EC_number p)
      /\ e = None).

End MergerSpec.

(** ** The flat file seen as a sequence of entries *)

Module Entries.
Import PyStr Parser.

Definition is_id_line (line : string) : Prop := line_code line = "ID".
Definition is_end_line (line : string) : Prop := line_code line = "//".

#[global] Instance is_id_line_dec line : Decision (is_id_line line).
Proof. unfold is_id_line. apply _. Defined.
#[global] Instance is_end_line_dec line : Decision (is_end_line line).
Proof. unfold is_end_line. apply _. Defined.

(** The classification id an [ID] line carries, if any. *)
Definition line_id (line : string) : option string := head (split (line_content line)).

(** The ids carried by the [ID] lines of a block of lines. *)
Definition ids_of (lines : list string) : list string :=
  omap line_id (filter is_id_line lines).

(** The entries of a file: the blocks of lines that the [//] lines
    close, and the block that the end of the file closes. *)
Fixpoint entries_from (cur lines : list string) : list (list string) :=
  match lines with
  | [] => [cur]
  | l :: r => if bool_decide (is_end_line l) then cur :: entries_from [] r
              else entries_from (cur ++ [l]) r
  end.

Definition entries (lines : list string) : list (list string) := entries_from [] lines.

(** The id of an entry: the one its [ID] line carries. *)
Definition entry_id (entry : list string) : option string :=
  head (filter is_id_line entry) ≫= line_id.

(** A well-formed file has at most one [ID] line in each entry. *)
Definition well_formed (lines : list string) : Prop :=
  Forall (fun entry => length (filter is_id_line entry) <= 1) (entries lines).

(** The contents of the lines of a block that carry a given code. *)
Definition contents_with (code : string) (lines : list string) : list string :=
  line_content <$> filter (fun l => line_code l = code) lines.

(** The accessions of the [DR] lines of a block. *)
Definition accessions_of (lines : list string) : list string :=
  flat_map (fun l => dr_accessions (line_content l))
           (filter (fun l => line_code l = "DR") lines).

(** An accumulator after the lines of a block without [ID] and [//]
    lines. *)
Definition collect_body (cur : current) (body : list string) : current :=
  Current (EC_number cur)
          (Enzyme_name cur ++ contents_with "DE" body)
          (Alt_names cur ++ contents_with "AN" body)
          (Reaction cur ++ contents_with "CA" body)
          (Prosite_refs cur ++ contents_with "PR" body)
          (UniProt_IDs cur ++ accessions_of body).

(** The ids a state holds: those of the rows, then the open one. *)
Definition held_ids (st : state) : list (option string) :=
  (row_EC_number <$> st.2) ++
  match EC_number st.1 with Some i => [Some i] | None => [] end.

(** A file with three entries: the second has no [ID] line and the last
    one no closing [//]. *)
Definition sample_file : list string :=
  ["ID   1.1.1.1"; "DE   alcohol dehydrogenase."; "DR   P00330, ADH1_YEAST ;";
   "//"; "DE   an entry without id"; "//"; "ID   1.1.1.2"; "DE   trailing entry."].

(** A file whose first entry has an [ID] line without id. *)
Definition stale_file : list string :=
  ["ID"; "DE   ghost entry."; "//";
   "ID   1.1.1.1"; "DE   alcohol dehydrogenase."; "//"].

(** A file whose entry lists the same accession twice. *)
Definition repeat_file : list string :=
  ["ID   1.1.1.1"; "DR   P00330, ADH1_YEAST ;  P00330, ADH1_YEAST ;"; "//"].

(** The row the specification describes for an open accumulator: as the
    parser builds it, but with the accessions deduplicated by appearance. *)
Definition row_with_unique_accessions (cur : current) : row :=
  Row (EC_number cur)
      (or_none (join " " (Enzyme_name cur)))
      (or_none (join " " (Alt_names cur)))
      (or_none (join " " (Reaction cur)))
      (or_none (join "; " (Prosite_refs cur)))
      (or_none (join "," (Pandas.drop_dup_by id (UniProt_IDs cur)))).

End Entries.


(** ** A sample lookup service *)

Module Samples.
Import Pandas Fetcher.

(** The table of a response with the labels the service uses. *)
Definition sample_frame : DataFrame :=
  Frame ["Entry"; "Organism"; "Sequence"]
        [[Some "P00330"; Some "Saccharomyces cerevisiae"; Some "MSIPE"];
         [Some "P00331"; None; Some "MSIPK"]].

(** A service that answers every query but the one for [P00332]. *)
Definition sample_get (query : string) : http_outcome :=
  if bool_decide (query = "accession:P00332") then RequestError
  else Response 200 "Entry Organism Sequence".

Definition sample_csv (text : string) : res DataFrame := Ok sample_frame.

(** The sample table with the canonical columns. *)
Definition sample_table : DataFrame :=
  Frame expected
        [[Some "P00330"; Some "MSIPE"; None; Some "Saccharomyces cerevisiae"; None; None];
         [Some "P00331"; Some "MSIPK"; None; None; None; None]].

(** A response that carries the accession under two known labels. *)
Definition twin_frame : DataFrame :=
  Frame ["Entry"; "Accession"] [[Some "P00330"; Some "P00330"]].

Definition twin_csv (text : string) : res DataFrame := Ok twin_frame.



End Samples.

(** ** Views used by the further properties *)

Module Views.
Import PyStr Tokens Parser Entries.

(** The codes the parser acts on. *)
Definition known_codes : list string := ["ID"; "DE"; "AN"; "CA"; "PR"; "DR"; "//"].

(** A line the parser passes over: a blank line or a line with another
    code. *)
Definition ignored_line (line : string) : Prop := line_code line ∉ known_codes.

#[global] Instance ignored_line_dec line : Decision (ignored_line line).
Proof. unfold ignored_line. apply _. Defined.

(** The rows appended while the lines are read, before the flush at the
    end of the file. *)
Definition rows_after (lines : list string) : list row := (fold_left step lines init).2.

(** A character that is not whitespace. *)
Definition gap (c : ascii) : bool := negb (is_space c).

(** A text without whitespace. *)
Definition no_space (s : string) : Prop :=
  Forall (fun c => is_space c = false) (chars s).

(** An accession as the parser keeps it: six characters of [[A-Z0-9]],
    not starting with ["PS"]. *)
Definition accession_shaped (acc : string) : Prop :=
  length (chars acc) = 6
  /\ Forall (fun c => is_upper_digit c = true) (chars acc)
  /\ startswith "PS" acc = false.

(** The row a flush builds from an accumulator. *)
Definition row_of (cur : current) : row :=
  Row (EC_number cur)
      (or_none (join " " (Enzyme_name cur)))
      (or_none (join " " (Alt_names cur)))
      (or_none (join " " (Reaction cur)))
      (or_none (join "; " (Prosite_refs cur)))
      (or_none (join "," (UniProt_IDs cur))).

(** A state whose collected accessions satisfy [Q] and whose rows
    satisfy [P]. *)
Definition state_inv (Q : list string -> Prop) (P : row -> Prop) (st : state) : Prop :=
  Q (UniProt_IDs st.1) /\ Forall P st.2.

(** The text fields of a row. *)
Definition text_fields (r : row) : list (option string) :=
  [row_Enzyme_name r; row_Alt_names r; row_Reaction r; row_Prosite_refs r;
   row_UniProt_IDs r].

(** A line between entries that leaves the state alone: a [//] line or a
    line the parser passes over. *)
Definition filler_line (line : string) : Prop := is_end_line line \/ ignored_line line.

#[global] Instance filler_line_dec line : Decision (filler_line line).
Proof. unfold filler_line. apply _. Defined.

(** An entry of a file: its [ID] line, the lines of its body, the [//]
    line that closes it and the lines up to the next entry. *)
Record block := Block {
  block_id_line : string;
  block_body : list string;
  block_end_line : string;
  block_trailer : list string
}.

Definition block_lines (b : block) : list string :=
  block_id_line b :: block_body b ++ block_end_line b :: block_trailer b.

(** A closed entry: the [ID] line carries an id, the body has no [ID]
    and no [//] line, the entry ends with a [//] line and only filler
    lines follow. *)
Definition closed_block (b : block) : Prop :=
  is_id_line (block_id_line b)
  /\ is_Some (line_id (block_id_line b))
  /\ Forall (fun l => ~ is_id_line l /\ ~ is_end_line l) (block_body b)
  /\ is_end_line (block_end_line b)
  /\ Forall filler_line (block_trailer b).

#[global] Instance closed_block_dec b : Decision (closed_block b).
Proof. unfold closed_block. apply _. Defined.

(** The row of an entry, from its own lines. *)
Definition block_row (b : block) : row :=
  Row (line_id (block_id_line b))
      (or_none (join " " (contents_with "DE" (block_body b))))
      (or_none (join " " (contents_with "AN" (block_body b))))
      (or_none (join " " (contents_with "CA" (block_body b))))
      (or_none (join "; " (contents_with "PR" (block_body b))))
      (or_none (join "," (accessions_of (block_body b)))).

End Views.

(** ** The master table seen from the pair table *)

Module MasterViews.
Import Pandas Merger.

(** The pair a row of the master table was built from. *)
Definition pair_of (r : master) : Expander.pair :=
  Expander.Pair (m_EC_number r) (m_UniProt_ID r).

(** The sequence the sequence table gives for an accession: that of its
    first row with the accession. *)
Definition sequence_for (uniprot_rows : list uniprot) (acc : cell) : cell :=
  head (filter (fun x => UniProt_ID x = acc) uniprot_rows) ≫= Sequence.

(** A pair whose accession has a sequence that is not empty. *)
Definition sequenced (uniprot_rows : list uniprot) (p : Expander.pair) : Prop :=
  sequence_for uniprot_rows (Expander.UniProt_ID p) <> None
  /\ sequence_for uniprot_rows (Expander.UniProt_ID p) <> Some "".

(** The joined row of a pair when each key has at most one match. *)
Definition joined_row (ec_meta : list meta) (uniprot_rows : list uniprot)
    (p : Expander.pair) : master :=
  add_uniprot
    (add_meta p (head (filter (fun m => meta_EC_number m = Expander.EC_number p) ec_meta)))
    (head (filter (fun x => UniProt_ID x = Expander.UniProt_ID p) uniprot_rows)).

#[global] Instance sequenced_dec uniprot_rows p : Decision (sequenced uniprot_rows p).
Proof. unfold sequenced. apply _. Defined.

End MasterViews.

(** ** Further sample services *)

Module MoreSamples.
Import Pandas Fetcher.

(** A service that is down: every request meets a transport error. *)
Definition down_get (query : string) : http_outcome := RequestError.

(** A body that cannot be parsed as a table. *)
Definition broken_csv (text : string) : res DataFrame := Raise ParserError.

End MoreSamples.

(** * Properties *)

(** ** Texts and their pieces *)

Section StringFacts.
Import PyStr.

Lemma chars_str l : chars (str l) = l.
Proof. apply list_ascii_of_string_of_list_ascii. Qed.

Lemma str_chars s : str (chars s) = s.
Proof. apply string_of_list_ascii_of_string. Qed.

Lemma chars_app s1 s2 : chars (s1 +:+ s2) = chars s1 ++ chars s2.
Proof.
  induction s1 as [|c s1 IH]; [done|].
  change (chars (String c s1 +:+ s2)) with (c :: chars (s1 +:+ s2)).
  change (chars (String c s1)) with (c :: chars s1).
  by rewrite IH.
Qed.

Lemma chars_join sep a b l :
  chars (join sep (a :: b :: l)) = chars a ++ chars sep ++ chars (join sep (b :: l)).
Proof.
  unfold join. change (String.concat sep (a :: b :: l))
    with (a +:+ sep +:+ String.concat sep (b :: l)).
  by rewrite !chars_app.
Qed.

Lemma split_on_from_free sep t : forall cur rest,
  sep ∉ t -> split_on_from sep cur (t ++ rest) = split_on_from sep (cur ++ t) rest.
Proof.
  induction t as [|c t IH]; intros cur rest Hfree; simpl.
  - by rewrite app_nil_r.
  - rewrite bool_decide_false by set_solver.
    rewrite IH by set_solver. by rewrite <- app_assoc.
Qed.

Lemma split_on_from_join l : forall a cur,
  Forall (fun s => comma ∉ chars s) (a :: l) ->
  split_on_from comma cur (chars (join "," (a :: l))) = (cur ++ chars a) :: (chars <$> l).
Proof.
  induction l as [|b l IH]; intros a cur Hfree.
  - inversion Hfree as [|? ? Ha _]; subst.
    change (join "," [a]) with a.
    rewrite <- (app_nil_r (chars a)) at 1. by rewrite split_on_from_free.
  - inversion Hfree as [|? ? Ha Hfree']; subst.
    rewrite chars_join, split_on_from_free by done.
    change (chars ",") with [comma]. cbn [app split_on_from].
    rewrite bool_decide_true by done. rewrite IH by done. done.
Qed.

(** Splitting a comma-joined list of comma-free texts gives the list
    back. *)
Lemma split_on_join accs :
  accs <> [] -> Forall (fun s => comma ∉ chars s) accs ->
  split_on comma (join "," accs) = accs.
Proof.
  destruct accs as [|a l]; [done|]. intros _ Hfree. unfold split_on.
  rewrite split_on_from_join by done. cbn [fmap list_fmap app].
  rewrite str_chars. f_equal. rewrite <- list_fmap_compose.
  rewrite <- (list_fmap_id l) at 2. apply list_fmap_ext. intros ? s _. apply str_chars.
Qed.





Lemma split_on_free sep s : sep ∉ chars s -> split_on sep s = [s].
Proof.
  intros H. unfold split_on. rewrite <- (app_nil_r (chars s)).
  rewrite split_on_from_free by done. cbn. by rewrite str_chars.
Qed.




End StringFacts.

Section ListFacts.


End ListFacts.

(** ** Tables *)

Section TableFacts.
Import Pandas.

Lemma elem_of_flat_map {A B} (f : A -> list B) (l : list A) (y : B) :
  y ∈ flat_map f l <-> exists x, x ∈ l /\ y ∈ f x.
Proof.
  rewrite list_elem_of_In, in_flat_map.
  split; intros (x & H1 & H2); exists x; by rewrite ?list_elem_of_In in *.
Qed.

Context {A K : Type} `{EqDecision K} (key : A -> K).

(** Among the rows with a given key, deduplication keeps the first one
    and nothing else. *)
Lemma drop_dup_from_first seen l k :
  filter (fun x => key x = k) (drop_dup_from key seen l)
  = if bool_decide (k ∈ seen) then []
    else option_list (head (filter (fun x => key x = k) l)).
Proof.
  revert seen. induction l as [|x l IH]; intros seen; simpl.
  - by case_bool_decide.
  - case_bool_decide as Hx.
    + rewrite IH. case_bool_decide as Hk; [done|].
      rewrite (filter_cons_False _ x); [done|]. intros Heq. by rewrite Heq in Hx.
    + destruct (decide (key x = k)) as [<-|Hne].
      * rewrite !filter_cons_True by done. rewrite IH.
        rewrite bool_decide_true by set_solver.
        by rewrite bool_decide_false.
      * rewrite !filter_cons_False by done. rewrite IH.
        case_bool_decide as H1; case_bool_decide as H2; try done; set_solver.
Qed.

Lemma drop_dup_by_first l k :
  filter (fun x => key x = k) (drop_dup_by key l)
  = option_list (head (filter (fun x => key x = k) l)).
Proof.
  unfold drop_dup_by. rewrite drop_dup_from_first.
  rewrite bool_decide_false; [done|]. apply not_elem_of_nil.
Qed.

Lemma drop_dup_from_sublist seen l : drop_dup_from key seen l `sublist_of` l.
Proof.
  revert seen. induction l as [|x l IH]; intros seen; simpl; [done|].
  case_bool_decide; [apply sublist_cons|apply sublist_skip]; apply IH.
Qed.

Lemma drop_dup_by_sublist l : drop_dup_by key l `sublist_of` l.
Proof. apply drop_dup_from_sublist. Qed.

Lemma drop_dup_from_NoDup seen l :
  NoDup (key <$> drop_dup_from key seen l)
  /\ forall x, x ∈ drop_dup_from key seen l -> key x ∉ seen.
Proof.
  revert seen. induction l as [|x l IH]; intros seen; simpl.
  - split; [constructor|]. intros y Hy. by apply elem_of_nil in Hy.
  - case_bool_decide as Hx; [apply IH|].
    destruct (IH (key x :: seen)) as [Hnd Hseen]. split.
    + simpl. apply NoDup_cons. split; [|done].
      intros (y & Hy & Hin)%list_elem_of_fmap.
      apply Hseen in Hin. rewrite Hy in Hin. set_solver.
    + intros y [->|Hy]%elem_of_cons; [done|].
      apply Hseen in Hy. set_solver.
Qed.

Lemma drop_dup_by_NoDup l : NoDup (key <$> drop_dup_by key l).
Proof. apply drop_dup_from_NoDup. Qed.

Lemma drop_dup_by_keys l k :
  k ∈ key <$> drop_dup_by key l <-> k ∈ key <$> l.
Proof.
  rewrite !list_elem_of_fmap. split.
  - intros (x & -> & Hx). exists x. split; [done|].
    eapply elem_of_sublist; [done|apply drop_dup_by_sublist].
  - intros (x & -> & Hx).
    assert (x ∈ filter (fun y => key y = key x) l) as Hf
      by (by apply list_elem_of_filter).
    destruct (filter (fun y => key y = key x) l) as [|z r] eqn:E;
      [by apply elem_of_nil in Hf|].
    pose proof (drop_dup_by_first l (key x)) as Hfirst.
    rewrite E in Hfirst. simpl in Hfirst.
    assert (z ∈ filter (fun y => key y = key x) (drop_dup_by key l)) as Hz
      by (rewrite Hfirst; set_solver).
    apply list_elem_of_filter in Hz as [Hkz Hz]. eauto.
Qed.

End TableFacts.

Lemma drop_dup_by_id_elem {A} `{EqDecision A} (l : list A) x :
  x ∈ Pandas.drop_dup_by id l <-> x ∈ l.
Proof.
  pose proof (drop_dup_by_keys (@id A) l x) as H.
  by rewrite !list_fmap_id in H.
Qed.

Lemma drop_dup_by_id_NoDup {A} `{EqDecision A} (l : list A) :
  NoDup (Pandas.drop_dup_by id l).
Proof.
  pose proof (drop_dup_by_NoDup (@id A) l) as H.
  by rewrite list_fmap_id in H.
Qed.

(** ** Pair expander *)

Section ExpanderFacts.
Import PyStr Pandas Expander ExpanderSpec.










(** A record with commas in front, doubled and at the end. *)
Example explode_stray_commas :
  explode_uniprot_ids
    [Raw (Some "1.1.1.1") (Some ",P00330,,P00331,");
     Raw (Some "1.1.1.2") None;
     Raw (Some "1.1.1.3") (Some "P00330")]
  = [Pair (Some "1.1.1.1") (Some "P00330");
     Pair (Some "1.1.1.1") (Some "P00331");
     Pair (Some "1.1.1.3") (Some "P00330")].
Proof. vm_compute. reflexivity. Qed.

End ExpanderFacts.

(** ** Record parser *)

Section ParserFacts.
Import PyStr Parser Entries.

Lemma flush_entry_held st : held_ids (flush_entry st) = held_ids st.
Proof.
  destruct st as [cur rows]. unfold flush_entry, held_ids.
  destruct (EC_number cur) eqn:E; simpl; [|by rewrite E].
  by rewrite fmap_app, app_nil_r, E.
Qed.

Lemma flush_entry_closed st : EC_number (flush_entry st).1 = None.
Proof.
  destruct st as [cur rows]. unfold flush_entry.
  by destruct (EC_number cur) eqn:E.
Qed.

Lemma ids_of_app l1 l2 : ids_of (l1 ++ l2) = ids_of l1 ++ ids_of l2.
Proof. unfold ids_of. by rewrite filter_app, omap_app. Qed.

Lemma ids_of_cons_id l r : is_id_line l -> ids_of (l :: r) = option_list (line_id l) ++ ids_of r.
Proof.
  intros H. unfold ids_of. rewrite filter_cons_True by done. cbn -[line_id].
  by destruct (line_id l).
Qed.

Lemma ids_of_cons_other l r : ~ is_id_line l -> ids_of (l :: r) = ids_of r.
Proof. intros H. unfold ids_of. by rewrite filter_cons_False. Qed.

Lemma step_held st l :
  held_ids (step st l) = held_ids st ++ (Some <$> ids_of [l]).
Proof.
  unfold step.
  case_bool_decide as Hblank.
  { rewrite ids_of_cons_other; [by rewrite app_nil_r|].
    unfold is_id_line, line_code. by rewrite Hblank. }
  case_bool_decide as Hid.
  { rewrite ids_of_cons_id by done. change (ids_of []) with (@nil string).
    rewrite app_nil_r. change (head _) with (line_id l).
    assert (forall st', EC_number st'.1 = None ->
      held_ids (let '(cur, rows) := st' in (set_EC_number (line_id l) cur, rows))
      = held_ids st' ++ (Some <$> option_list (line_id l))) as Hset.
    { intros [cur rows] Hc. cbn [fst] in Hc. unfold held_ids, set_EC_number.
      cbn [fst snd EC_number]. rewrite Hc, app_nil_r. by destruct (line_id l). }
    destruct (EC_number st.1) eqn:E.
    - rewrite Hset by apply flush_entry_closed. by rewrite flush_entry_held.
    - by rewrite Hset. }
  assert (~ is_id_line l) as Hn by done.
  rewrite ids_of_cons_other by done. simpl. rewrite app_nil_r.
  repeat case_bool_decide; try done; by rewrite ?flush_entry_held.
Qed.

Lemma fold_step_held lines st :
  held_ids (fold_left step lines st) = held_ids st ++ (Some <$> ids_of lines).
Proof.
  revert st. induction lines as [|l lines IH]; intros st; simpl.
  - by rewrite app_nil_r.
  - rewrite IH, step_held, <- app_assoc, <- fmap_app.
    by rewrite <- ids_of_app.
Qed.

(** Every [ID] line that carries an id yields one row, in order. *)
Lemma parse_ids lines :
  row_EC_number <$> parse_enzyme_dat lines = Some <$> ids_of lines.
Proof.
  unfold parse_enzyme_dat.
  pose proof (fold_step_held lines init) as H.
  rewrite <- (flush_entry_held (fold_left step lines init)) in H.
  unfold held_ids at 1 in H. rewrite flush_entry_closed, app_nil_r in H.
  by rewrite H.
Qed.

Lemma ids_of_end_line l r : is_end_line l -> ids_of (l :: r) = ids_of r.
Proof.
  intros H. apply ids_of_cons_other. unfold is_id_line, is_end_line in *.
  by rewrite H.
Qed.

Lemma ids_of_entries_from cur lines :
  flat_map ids_of (entries_from cur lines) = ids_of cur ++ ids_of lines.
Proof.
  revert cur. induction lines as [|l r IH]; intros cur; simpl.
  - done.
  - case_bool_decide as Hend; simpl.
    + by rewrite IH, ids_of_end_line.
    + rewrite IH, ids_of_app, <- app_assoc. by rewrite <- ids_of_app.
Qed.

Lemma ids_of_entries lines : flat_map ids_of (entries lines) = ids_of lines.
Proof. apply ids_of_entries_from. Qed.

Lemma ids_of_single_entry entry :
  length (filter is_id_line entry) <= 1 -> ids_of entry = option_list (entry_id entry).
Proof.
  unfold ids_of, entry_id. intros H.
  destruct (filter is_id_line entry) as [|l [|l' r]];
    [done| |cbn [length] in H; lia].
  cbn -[line_id]. by destruct (line_id l).
Qed.

Lemma ids_of_well_formed es :
  Forall (fun entry => length (filter is_id_line entry) <= 1) es ->
  flat_map ids_of es = omap entry_id es.
Proof.
  induction 1 as [|e es He _ IH]; simpl; [done|].
  rewrite IH, ids_of_single_entry by done. by destruct (entry_id e).
Qed.

(** C1: on a well-formed file the parser emits, in order, exactly one
    row for each entry (closed by a [//] line or by the end of the file)
    that has an id, none for an entry without id, and no row has a
    missing id. *)
Theorem parse_one_row_per_entry lines :
  well_formed lines ->
  row_EC_number <$> parse_enzyme_dat lines = Some <$> omap entry_id (entries lines)
  /\ length (parse_enzyme_dat lines)
     = length (filter (fun e => is_Some (entry_id e)) (entries lines))
  /\ Forall (fun r => row_EC_number r <> None) (parse_enzyme_dat lines).
Proof.
  intros Hwf.
  assert (row_EC_number <$> parse_enzyme_dat lines
          = Some <$> omap entry_id (entries lines)) as Heq.
  { by rewrite parse_ids, <- ids_of_entries, ids_of_well_formed. }
  split; [done|]. split.
  - rewrite <- (length_fmap row_EC_number), Heq, length_fmap.
    clear. induction (entries lines) as [|e es IH]; simpl; [done|].
    destruct (entry_id e) eqn:E; simpl.
    + rewrite filter_cons_True by (by rewrite E). simpl. f_equal. exact IH.
    + rewrite filter_cons_False; [done|]. rewrite E. by intros [? ?].
  - apply Forall_forall. intros r Hr Hnone.
    assert (row_EC_number r ∈ row_EC_number <$> parse_enzyme_dat lines) as Hin
      by (by apply list_elem_of_fmap_2).
    rewrite Heq, Hnone in Hin. apply list_elem_of_fmap in Hin as (? & ? & _). done.
Qed.

Lemma parse_one_row_per_entry_witness :
  well_formed sample_file
  /\ row_EC_number <$> parse_enzyme_dat sample_file = [Some "1.1.1.1"; Some "1.1.1.2"].
Proof.
  assert (well_formed sample_file) as Hwf.
  { apply (bool_decide_unpack _). vm_compute. exact I. }
  split; [exact Hwf|].
  destruct (parse_one_row_per_entry sample_file Hwf) as [-> _].
  vm_compute. reflexivity.
Defined.

Lemma contents_with_cons code l body :
  contents_with code (l :: body)
  = (if decide (line_code l = code) then [line_content l] else [])
    ++ contents_with code body.
Proof.
  unfold contents_with. rewrite filter_cons. by destruct (decide (line_code l = code)).
Qed.

Lemma accessions_of_cons l body :
  accessions_of (l :: body)
  = (if decide (line_code l = "DR") then dr_accessions (line_content l) else [])
    ++ accessions_of body.
Proof.
  unfold accessions_of. rewrite filter_cons. by destruct (decide (line_code l = "DR")).
Qed.

Lemma collect_body_nil cur : collect_body cur [] = cur.
Proof.
  destruct cur. unfold collect_body, contents_with, accessions_of. cbn.
  by rewrite !app_nil_r.
Qed.

Lemma collect_body_cons cur l body :
  collect_body cur (l :: body) = collect_body (collect_body cur [l]) body.
Proof.
  unfold collect_body. cbn [EC_number Enzyme_name Alt_names Reaction Prosite_refs UniProt_IDs].
  rewrite !(contents_with_cons _ l body), !(contents_with_cons _ l []).
  rewrite (accessions_of_cons l body), (accessions_of_cons l []).
  change (contents_with _ []) with (@nil string).
  change (accessions_of []) with (@nil string).
  by rewrite !app_nil_r, !app_assoc.
Qed.

(** A line that neither opens nor closes an entry only adds its content
    to the field of its code. *)
Lemma step_body st l :
  ~ is_id_line l -> ~ is_end_line l -> step st l = (collect_body st.1 [l], st.2).
Proof.
  unfold is_id_line, is_end_line. intros Hid Hend.
  destruct st as [cur rows]. cbn [fst snd].
  unfold collect_body. rewrite !contents_with_cons, accessions_of_cons.
  change (contents_with _ []) with (@nil string).
  change (accessions_of []) with (@nil string).
  unfold step. fold (line_code l). fold (line_content l). cbn [fst snd].
  destruct cur as [i n a r p u].
  cbn [EC_number Enzyme_name Alt_names Reaction Prosite_refs UniProt_IDs].
  case_bool_decide as Hblank.
  { assert (line_code l = "") as Hc by (unfold line_code; by rewrite Hblank).
    rewrite !decide_False by (by rewrite Hc). by rewrite !app_nil_r. }
  rewrite (bool_decide_false (line_code l = "ID")) by done.
  destruct (decide (line_code l = "DE")) as [Hc|?].
  { rewrite bool_decide_true by done.
    rewrite !decide_False by (by rewrite Hc). by rewrite !app_nil_r. }
  rewrite (bool_decide_false (line_code l = "DE")) by done.
  destruct (decide (line_code l = "AN")) as [Hc|?].
  { rewrite bool_decide_true by done.
    rewrite !decide_False by (by rewrite Hc). by rewrite !app_nil_r. }
  rewrite (bool_decide_false (line_code l = "AN")) by done.
  destruct (decide (line_code l = "CA")) as [Hc|?].
  { rewrite bool_decide_true by done.
    rewrite !decide_False by (by rewrite Hc). by rewrite !app_nil_r. }
  rewrite (bool_decide_false (line_code l = "CA")) by done.
  destruct (decide (line_code l = "PR")) as [Hc|?].
  { rewrite bool_decide_true by done.
    rewrite !decide_False by (by rewrite Hc). by rewrite !app_nil_r. }
  rewrite (bool_decide_false (line_code l = "PR")) by done.
  destruct (decide (line_code l = "DR")) as [Hc|?].
  { rewrite bool_decide_true by done. by rewrite !app_nil_r. }
  rewrite (bool_decide_false (line_code l = "DR")) by done.
  rewrite (bool_decide_false (line_code l = "//")) by done.
  by rewrite !app_nil_r.
Qed.

Lemma fold_step_body body : forall st,
  Forall (fun l => ~ is_id_line l /\ ~ is_end_line l) body ->
  fold_left step body st = (collect_body st.1 body, st.2).
Proof.
  induction body as [|l body IH]; intros st Hbody.
  - cbn [fold_left]. rewrite collect_body_nil. by destruct st.
  - inversion Hbody as [|? ? [Hid Hend] Hbody']; subst.
    cbn [fold_left]. rewrite step_body by done. rewrite IH by done.
    cbn [fst snd]. by rewrite <- collect_body_cons.
Qed.

(** An entry that is alone in its file: its row holds the id of its
    [ID] line and, field by field, the joined contents of its own lines,
    with or without a closing [//] line. *)
Lemma parse_single_entry id_line body closing i :
  is_id_line id_line -> line_id id_line = Some i ->
  Forall (fun l => ~ is_id_line l /\ ~ is_end_line l) body ->
  Forall is_end_line closing ->
  parse_enzyme_dat (id_line :: body ++ closing)
  = [Row (Some i)
         (or_none (join " " (contents_with "DE" body)))
         (or_none (join " " (contents_with "AN" body)))
         (or_none (join " " (contents_with "CA" body)))
         (or_none (join "; " (contents_with "PR" body)))
         (or_none (join "," (accessions_of body)))].
Proof.
  intros Hid Hi Hbody Hclosing. unfold parse_enzyme_dat.
  cbn [fold_left]. rewrite fold_left_app.
  assert (step init id_line = (set_EC_number (Some i) fresh, [])) as ->.
  { unfold step. unfold is_id_line, line_code in Hid.
    case_bool_decide as Hblank; [by rewrite Hblank in Hid|].
    rewrite bool_decide_true by done. fold (line_content id_line).
    fold (line_id id_line). by rewrite Hi. }
  rewrite (fold_step_body body) by done. cbn [fst snd].
  set (row := Row _ _ _ _ _ _).
  assert (flush_entry (collect_body (set_EC_number (Some i) fresh) body, [])
          = (fresh, [row])) as Hflush by done.
  assert (forall ls, Forall is_end_line ls ->
            fold_left step ls (fresh, [row]) = (fresh, [row])) as Hrest.
  { clear. induction 1 as [|l ls Hl _ IH]; [done|]. cbn [fold_left].
    assert (step (fresh, [row]) l = (fresh, [row])) as ->; [|done].
    unfold step. unfold is_end_line, line_code in Hl.
    case_bool_decide as Hblank; [done|]. by rewrite Hl. }
  destruct Hclosing as [|l ls Hl Hls].
  - cbn [fold_left]. by rewrite Hflush.
  - cbn [fold_left].
    assert (step (collect_body (set_EC_number (Some i) fresh) body, []) l
            = (fresh, [row])) as ->.
    { unfold step. unfold is_end_line, line_code in Hl.
      case_bool_decide as Hblank; [by rewrite Hblank in Hl|]. rewrite Hl.
      exact Hflush. }
    by rewrite Hrest.
Qed.

(** Scenario A of the specification. *)
Example parse_scenario_A :
  parse_enzyme_dat
    ["ID   1.1.1.1"; "DE   alcohol dehydrogenase."; "DR   P00330, ADH1_YEAST ;"; "//"]
  = [Row (Some "1.1.1.1") (Some "alcohol dehydrogenase.") None None None (Some "P00330")].
Proof. vm_compute. reflexivity. Qed.

(** Scenario B of the specification: a [DR] line with only a pattern
    identifier leaves the accessions empty; the row is still emitted. *)
Example parse_scenario_B :
  parse_enzyme_dat ["ID   1.1.1.1"; "DR   PS00001"; "//"]
  = [Row (Some "1.1.1.1") None None None None None].
Proof. vm_compute. reflexivity. Qed.

(** C4: the flush of an accumulator without id returns before the
    reset, so the name collected for the id-less first entry of
    [stale_file] is emitted as part of the name of the next entry. *)
Theorem stale_fields_reach_next_row :
  parse_enzyme_dat stale_file
  = [Row (Some "1.1.1.1") (Some "ghost entry. alcohol dehydrogenase.")
         None None None None].
Proof. vm_compute. reflexivity. Qed.

(** C5, as stated, fails: the accession field keeps repeated accessions. *)
Lemma flush_keeps_repeated_accessions :
  let cur := Current (Some "1.1.1.1") [] [] [] [] ["P00330"; "P00330"] in
  parse_enzyme_dat repeat_file = (flush_entry (cur, [])).2
  /\ (flush_entry (cur, [])).2 <> [row_with_unique_accessions cur]
  /\ row_UniProt_IDs <$> (flush_entry (cur, [])).2 = [Some "P00330,P00330"]
  /\ row_UniProt_IDs (row_with_unique_accessions cur) = Some "P00330".
Proof. vm_compute. repeat split; try reflexivity. intros H. discriminate H. Qed.

Lemma or_none_spec s : or_none s = None <-> s = "".
Proof. unfold or_none. case_bool_decide; naive_solver. Qed.

(** C5, amended: flushing an accumulator with an id appends one row and
    resets the accumulator; name, alternative names and reaction are the
    collected pieces joined by one space, the cross-references joined by
    ["; "], the accession field all collected accessions in order of
    appearance, repetitions included, joined by commas; a field whose
    joined text is empty is missing, so a row without accessions is
    emitted with a missing accession field. *)
Theorem flush_entry_row cur rows i :
  EC_number cur = Some i ->
  flush_entry (cur, rows)
  = (fresh,
     rows ++ [Row (Some i)
                  (or_none (join " " (Enzyme_name cur)))
                  (or_none (join " " (Alt_names cur)))
                  (or_none (join " " (Reaction cur)))
                  (or_none (join "; " (Prosite_refs cur)))
                  (or_none (join "," (UniProt_IDs cur)))])
  /\ (forall sep l, or_none (join sep l) = None <-> join sep l = "")
  /\ (forall sep, or_none (join sep []) = None)
  /\ (UniProt_IDs cur = [] ->
      row_UniProt_IDs <$> (flush_entry (cur, rows)).2
      = (row_UniProt_IDs <$> rows) ++ [None]).
Proof.
  intros Hid. unfold flush_entry. rewrite Hid.
  repeat split; try (intros; by apply or_none_spec).
  intros Hacc. simpl. rewrite fmap_app, Hacc. reflexivity.
Qed.

Lemma flush_entry_row_witness :
  EC_number (Current (Some "1.1.1.1") ["alcohol"; "dehydrogenase."] [] [] ["PDOC00058"] [])
    = Some "1.1.1.1"
  /\ (flush_entry
        (Current (Some "1.1.1.1") ["alcohol"; "dehydrogenase."] [] [] ["PDOC00058"] [],
         [])).2
     = [Row (Some "1.1.1.1") (Some "alcohol dehydrogenase.") None None
            (Some "PDOC00058") None].
Proof.
  split; [reflexivity|].
  destruct (flush_entry_row
              (Current (Some "1.1.1.1") ["alcohol"; "dehydrogenase."] [] [] ["PDOC00058"] [])
              [] "1.1.1.1" eq_refl) as [-> _].
  vm_compute. reflexivity.
Defined.

End ParserFacts.

(** ** Accession scan *)

Section RegexFacts.
Import PyStr Regex Tokens Parser.

Lemma upper_digit_is_word c : is_upper_digit c = true -> is_word c = true.
Proof.
  unfold is_word, is_alnum, is_upper_digit. cbv zeta. intros H. by rewrite H.
Qed.

Lemma not_word_not_upper_digit c : is_word c = false -> is_upper_digit c = false.
Proof.
  intros H. destruct (is_upper_digit c) eqn:E; [|done].
  apply upper_digit_is_word in E. congruence.
Qed.

Lemma runs_from_run p run : forall cur rest,
  Forall (fun c => p c = true) run ->
  runs_from p cur (run ++ rest) = runs_from p (cur ++ run) rest.
Proof.
  induction run as [|c run IH]; intros cur rest Hrun; simpl.
  - by rewrite app_nil_r.
  - inversion Hrun as [|? ? Hc Hrun']; subst. rewrite Hc.
    rewrite IH by done. by rewrite <- app_assoc.
Qed.

(** A text is a run of word characters followed by nothing or by a
    character that is not one. *)
Lemma split_run p (l : list ascii) :
  exists run rest, l = run ++ rest /\ Forall (fun c => p c = true) run
    /\ (rest = [] \/ exists d rest', rest = d :: rest' /\ p d = false).
Proof.
  induction l as [|c l (run & rest & -> & Hrun & Hrest)].
  - exists [], []. auto.
  - destruct (p c) eqn:E.
    + exists (c :: run), rest. auto.
    + exists [], (c :: run ++ rest). split_and!; [done|done|]. right. eauto.
Qed.

(** Inside a word no position is a word boundary, so the scan passes
    through the rest of the word without a match. *)
Lemma findall_from_inside run : forall w k rest,
  Forall (fun c => is_word c = true) run -> is_word w = true -> k <= length run ->
  findall_from (Some w) k (run ++ rest) = findall_from (Some (List.last run w)) 0 rest.
Proof.
  induction run as [|c run IH]; intros w k rest Hrun Hw Hk; simpl in *.
  - by replace k with 0 by lia.
  - inversion Hrun as [|? ? Hc Hrun']; subst.
    assert (List.last run c = match run with [] => c | _ :: _ => List.last run w end) as Hlast.
    { clear. destruct run as [|a run]; [done|]. revert a.
      induction run as [|b run IH]; intros a; [done|]. simpl in *. apply IH. }
    destruct k as [|k].
    + unfold match_at, word_boundary. simpl. rewrite Hw, Hc. simpl.
      rewrite (IH c 0) by (done || lia). by rewrite Hlast.
    + rewrite (IH c k) by (done || lia). by rewrite Hlast.
Qed.

(** A character that is not a word character starts no match. *)
Lemma findall_from_gap prev d rest :
  is_word d = false ->
  findall_from prev 0 (d :: rest) = findall_from (Some d) 0 rest.
Proof.
  intros Hd. simpl. unfold match_at. simpl.
  rewrite (not_word_not_upper_digit d Hd). simpl.
  by rewrite andb_false_r.
Qed.

(** At the first character of a word the pattern matches exactly when
    the word has the shape of an accession. *)
Lemma match_at_run prev run rest :
  is_word_at prev = false -> run <> [] ->
  Forall (fun c => is_word c = true) run ->
  (rest = [] \/ exists d rest', rest = d :: rest' /\ is_word d = false) ->
  match_at prev (run ++ rest) = shape6 run.
Proof.
  intros Hprev Hne Hrun Hrest.
  destruct run as [|c1 [|c2 [|c3 [|c4 [|c5 [|c6 [|c7 run]]]]]]]; [done|..];
    repeat match goal with
           | H : Forall _ (_ :: _) |- _ => inversion H; clear H; subst
           end;
    destruct Hrest as [->|(d & rest' & -> & Hd)];
    try (pose proof (not_word_not_upper_digit d Hd) as Hd');
    unfold match_at, shape6, word_boundary; simpl;
    repeat match goal with
           | H : is_word _ = _ |- _ => rewrite H
           | H : is_word_at _ = _ |- _ => rewrite H
           | H : is_upper_digit _ = _ |- _ => rewrite H
           end; simpl;
    rewrite ?andb_true_r, ?andb_false_r; done.
Qed.

Lemma take_run6 (run rest : list ascii) : length run = 6 -> take 6 (run ++ rest) = run.
Proof. intros H. rewrite <- H. by rewrite take_app_length. Qed.

(** The scan of a text that starts after a character that is not a word
    character (or at the beginning) finds the words of accession shape. *)
Lemma findall_from_runs n : forall l prev,
  length l <= n -> is_word_at prev = false ->
  findall_from prev 0 l = filter (fun t => shape6 t = true) (runs is_word l).
Proof.
  induction n as [|n IH]; intros l prev Hlen Hprev.
  { destruct l; [done|simpl in Hlen; lia]. }
  destruct l as [|c l]; [done|].
  destruct (is_word c) eqn:Hc.
  - destruct (split_run is_word (c :: l)) as (run & rest & Heq & Hrun & Hrest).
    destruct run as [|c' run].
    { destruct Hrest as [->|(d & rest' & -> & Hd)]; [done|].
      simpl in Heq. injection Heq as -> ->. congruence. }
    simpl in Heq. injection Heq as <- ->.
    assert (length rest <= n) as Hlen'.
    { simpl in Hlen. rewrite length_app in Hlen. lia. }
    inversion Hrun as [|? ? _ Hrun']; subst.
    assert (findall_from (Some (List.last run c)) 0 rest
            = filter (fun t => shape6 t = true) (runs is_word (List.tl rest))) as Htail.
    { destruct Hrest as [->|(d & rest' & -> & Hd)]; [done|].
      rewrite findall_from_gap by done. simpl in *. apply IH; [lia|done]. }
    assert (runs is_word (c :: run ++ rest) = (c :: run) :: runs is_word (List.tl rest)) as ->.
    { unfold runs. change (c :: run ++ rest) with ((c :: run) ++ rest).
      rewrite runs_from_run by done. simpl.
      destruct Hrest as [->|(d & rest' & -> & Hd)]; [done|]. simpl. by rewrite Hd. }
    change (findall_from prev 0 (c :: run ++ rest)) with
      (if match_at prev ((c :: run) ++ rest)
       then take 6 ((c :: run) ++ rest) :: findall_from (Some c) 5 (run ++ rest)
       else findall_from (Some c) 0 (run ++ rest)).
    rewrite (match_at_run prev (c :: run) rest) by done.
    destruct (shape6 (c :: run)) eqn:Hshape.
    + rewrite filter_cons_True by done.
      assert (length (c :: run) = 6) as Hsix.
      { unfold shape6 in Hshape. apply andb_true_iff in Hshape as [H6 _].
        by apply Nat.eqb_eq in H6. }
      rewrite take_run6 by done.
      rewrite findall_from_inside by (done || (simpl in Hsix; lia)).
      by rewrite Htail.
    + rewrite filter_cons_False by (by rewrite Hshape).
      rewrite findall_from_inside by (done || lia).
      by rewrite Htail.
  - rewrite findall_from_gap by done.
    unfold runs. simpl. rewrite Hc. simpl.
    apply IH; [simpl in Hlen; lia|done].
Qed.

Lemma findall_accession_runs content :
  findall_accession content
  = str <$> filter (fun t => shape6 t = true) (runs is_word (chars content)).
Proof.
  unfold findall_accession. f_equal. by eapply findall_from_runs.
Qed.

(** C2, as stated, fails: an underscore is not alphanumeric, yet it is a
    word character, so a token of accession shape next to one is not
    bounded by a word boundary and is skipped. *)
Lemma underscore_is_no_boundary :
  dr_accessions "ABCDEF_YEAST" = [] /\ claimed_accessions "ABCDEF_YEAST" = ["ABCDEF"].
Proof. vm_compute. split; reflexivity. Qed.

Lemma dr_accessions_between content :
  dr_accessions content = accessions_between is_word content.
Proof.
  unfold dr_accessions, accessions_between. rewrite findall_accession_runs.
  apply list_filter_iff. intros acc. unfold not_pattern_id.
  by destruct (startswith "PS" acc).
Qed.

(** C2, amended: the accessions a [DR] line appends to the open record
    are, in order of appearance, the maximal runs of word characters
    (letters, digits and underscore) of the content that consist of
    exactly six characters of [[A-Z0-9]], without those that start with
    ["PS"]; nothing else of the state changes. *)
Theorem dr_line_appends_tokens st line :
  line_code line = "DR" ->
  step st line
  = (add_UniProt_IDs (accessions_between is_word (line_content line)) st.1, st.2)
  /\ UniProt_IDs (step st line).1
     = UniProt_IDs st.1 ++ accessions_between is_word (line_content line).
Proof.
  intros Hcode.
  assert (step st line
          = (add_UniProt_IDs (accessions_between is_word (line_content line)) st.1,
             st.2)) as Hstep.
  { unfold step. unfold line_code in Hcode.
    case_bool_decide as Hblank; [by rewrite Hblank in Hcode|].
    rewrite Hcode. rewrite dr_accessions_between. reflexivity. }
  split; [done|]. by rewrite Hstep.
Qed.

Lemma dr_line_appends_tokens_witness :
  line_code "DR   P00330, ADH1_YEAST ;  PS00001, X ;  Q8KQ25_9BACT ;" = "DR"
  /\ UniProt_IDs
       (step init "DR   P00330, ADH1_YEAST ;  PS00001, X ;  Q8KQ25_9BACT ;").1
     = ["P00330"].
Proof.
  split; [reflexivity|].
  destruct (dr_line_appends_tokens init
              "DR   P00330, ADH1_YEAST ;  PS00001, X ;  Q8KQ25_9BACT ;" eq_refl)
    as [_ ->].
  vm_compute. reflexivity.
Defined.

End RegexFacts.

(** ** Reconciler *)

Section ReconcilerFacts.
Import Pandas Reconciler.

Lemma ascii_compare_trans a b c :
  Ascii.compare a b <> Gt -> Ascii.compare b c <> Gt -> Ascii.compare a c <> Gt.
Proof.
  unfold Ascii.compare. rewrite !N.compare_le_iff. lia.
Qed.

Lemma ascii_compare_eq a b : Ascii.compare a b = Eq -> a = b.
Proof. apply Ascii.compare_eq_iff. Qed.

Lemma string_compare_trans a : forall b c,
  String.compare a b <> Gt -> String.compare b c <> Gt -> String.compare a c <> Gt.
Proof.
  induction a as [|x a IH]; intros [|y b] [|z c]; simpl; try done.
  destruct (Ascii.compare x y) eqn:Exy; [|  |done].
  - apply ascii_compare_eq in Exy as ->.
    destruct (Ascii.compare y z) eqn:Eyz; [apply IH|done|done].
  - destruct (Ascii.compare y z) eqn:Eyz; [| |done].
    + apply ascii_compare_eq in Eyz as ->. by rewrite Exy.
    + intros _ _.
      assert (Ascii.compare x z <> Gt) as H
        by (apply (ascii_compare_trans x y z); congruence).
      destruct (Ascii.compare x z) eqn:Exz; [|done|done].
      apply ascii_compare_eq in Exz as ->.
      revert Exy Eyz. unfold Ascii.compare.
      rewrite !N.compare_lt_iff. lia.
Qed.

#[global] Instance str_le_trans : Transitive str_le.
Proof.
  intros a b c. unfold str_le, String.leb.
  pose proof (string_compare_trans a b c).
  destruct (String.compare a b), (String.compare b c), (String.compare a c);
    naive_solver.
Qed.

#[global] Instance str_le_total : Total str_le.
Proof. intros a b. apply String.leb_total. Qed.

#[global] Instance str_le_antisymm : AntiSymm (=) str_le.
Proof. intros a b. apply String.leb_antisym. Qed.

Lemma sorted_elem l x : x ∈ sorted l <-> x ∈ l.
Proof. unfold sorted. by rewrite merge_sort_Permutation. Qed.

Lemma sorted_NoDup l : NoDup l -> NoDup (sorted l).
Proof. unfold sorted. by rewrite merge_sort_Permutation. Qed.

Lemma missing_elem (requested retrieved : gset string) x :
  x ∈ missing requested retrieved <-> x ∈ requested /\ x ∉ retrieved.
Proof. unfold missing. rewrite sorted_elem, elem_of_elements. set_solver. Qed.

(** C7: the reconciler lists exactly the requested ids that were not
    retrieved, each once, in increasing order; it lists nothing when the
    two sets are the same.  The embedding is a function of two immutable
    sets, so it has no effect on them. *)
Theorem missing_is_sorted_difference (requested retrieved : gset string) :
  (forall x, x ∈ missing requested retrieved <-> x ∈ requested /\ x ∉ retrieved)
  /\ NoDup (missing requested retrieved)
  /\ StronglySorted str_le (missing requested retrieved)
  /\ (forall l, (forall x, x ∈ l <-> x ∈ requested ∖ retrieved) ->
        NoDup l -> Sorted str_le l -> l = missing requested retrieved)
  /\ missing requested requested = [].
Proof.
  split_and!.
  - apply missing_elem.
  - apply sorted_NoDup, NoDup_elements.
  - apply StronglySorted_merge_sort; apply _.
  - intros l Hl Hnd Hs. apply (Sorted_unique str_le); [done| |].
    + apply Sorted_merge_sort. apply _.
    + apply NoDup_Permutation; [done|apply sorted_NoDup, NoDup_elements|].
      intros x. rewrite Hl. unfold missing. by rewrite sorted_elem, elem_of_elements.
  - unfold missing. replace (requested ∖ requested) with (∅ : gset string) by set_solver.
    by rewrite elements_empty.
Qed.

End ReconcilerFacts.

(** ** Merger *)

Section MergerFacts.
Import Pandas Merger MergerSpec.

Lemma left_join_elem {L R K O} `{EqDecision K} (key_l : L -> K) (key_r : R -> K)
    (combine : L -> option R -> O) left right y :
  y ∈ left_join key_l key_r combine left right <->
  exists l, l ∈ left /\
    ((exists r, r ∈ right /\ key_r r = key_l l /\ y = combine l (Some r))
     \/ ((forall r, r ∈ right -> key_r r <> key_l l) /\ y = combine l None)).
Proof.
  unfold left_join. rewrite elem_of_flat_map.
  apply exist_proper. intros l. apply and_iff_compat_l.
  destruct (filter (fun r => key_r r = key_l l) right) as [|m ms] eqn:E.
  - rewrite list_elem_of_singleton. split.
    + intros ->. right. split; [|done]. intros r Hr Hk.
      assert (r ∈ filter (fun r => key_r r = key_l l) right) as Hin
        by (by apply list_elem_of_filter).
      rewrite E in Hin. by apply elem_of_nil in Hin.
    + intros [(r & Hr & Hk & _)|[_ ->]]; [|done].
      assert (r ∈ filter (fun r => key_r r = key_l l) right) as Hin
        by (by apply list_elem_of_filter).
      rewrite E in Hin. by apply elem_of_nil in Hin.
  - rewrite list_elem_of_fmap. split.
    + intros (r & -> & Hr). left. exists r. rewrite <- E in Hr.
      apply list_elem_of_filter in Hr as [? ?]. done.
    + intros [(r & Hr & Hk & ->)|[Hno _]].
      * exists r. split; [done|]. rewrite <- E. by apply list_elem_of_filter.
      * assert (m ∈ filter (fun r => key_r r = key_l l) right) as Hin
          by (rewrite E; left).
        apply list_elem_of_filter in Hin as [Hk Hm]. by apply Hno in Hm.
Qed.

Lemma join_tables_elem enzyme_raw pairs uniprot_rows r :
  r ∈ join_tables enzyme_raw pairs uniprot_rows <->
  exists p m u, p ∈ pairs /\ meta_for enzyme_raw p m /\ uniprot_for uniprot_rows p u
    /\ r = add_uniprot (add_meta p m) u.
Proof.
  unfold join_tables. rewrite left_join_elem. split.
  - intros (w & Hw & Hu). apply left_join_elem in Hw as (p & Hp & Hm).
    assert (exists m, meta_for enzyme_raw p m /\ w = add_meta p m) as (m & Hmeta & ->).
    { destruct Hm as [(e & He & Hk & ->)|[Hno ->]].
      - apply drop_dup_by_id_elem, list_elem_of_fmap in He as (e' & -> & He').
        exists (Some (to_meta e')). split; [|done]. left. eauto.
      - exists None. split; [|done]. right. split; [|done].
        intros e He Hk. apply (Hno (to_meta e)); [|done].
        by apply drop_dup_by_id_elem, list_elem_of_fmap_2. }
    exists p, m. simpl in Hu.
    destruct Hu as [(x & Hx & Hk & ->)|[Hno ->]].
    + exists (Some x). split_and!; try done. left. eauto.
    + exists None. split_and!; try done. by right.
  - intros (p & m & u & Hp & Hm & Hu & ->). exists (add_meta p m). split.
    + apply left_join_elem. exists p. split; [done|].
      destruct Hm as [(e & He & Hk & ->)|[Hno ->]].
      * left. exists (to_meta e). split_and!; try done.
        by apply drop_dup_by_id_elem, list_elem_of_fmap_2.
      * right. split; [|done]. intros e He.
        apply drop_dup_by_id_elem, list_elem_of_fmap in He as (e' & -> & He').
        by apply Hno.
    + simpl. destruct Hu as [(x & Hx & Hk & ->)|[Hno ->]]; [left|right]; eauto.
Qed.

Lemma left_join_matches {L R K O} `{EqDecision K} (key_l : L -> K) (key_r : R -> K)
    (combine : L -> option R -> O) left right :
  left_join key_l key_r combine left right
  = flat_map (fun l => combine l <$> matches_or_none (fun r => key_r r = key_l l) right)
             left.
Proof.
  unfold left_join, matches_or_none. apply flat_map_ext. intros l.
  destruct (filter (fun r => key_r r = key_l l) right) as [|m ms]; [done|].
  by rewrite <- list_fmap_compose.
Qed.

Lemma flat_map_flat_map {A B C} (f : B -> list C) (g : A -> list B) (l : list A) :
  flat_map f (flat_map g l) = flat_map (fun x => flat_map f (g x)) l.
Proof.
  induction l as [|x l IH]; [done|]. cbn [flat_map]. by rewrite flat_map_app, IH.
Qed.

Lemma flat_map_fmap {A B C} (f : B -> list C) (g : A -> B) (l : list A) :
  flat_map f (g <$> l) = flat_map (fun x => f (g x)) l.
Proof. induction l as [|x l IH]; [done|]. cbn [fmap list_fmap flat_map]. by rewrite <- IH. Qed.

Lemma filter_fmap {A B} (f : A -> B) (P : B -> Prop) `{forall x, Decision (P x)}
    (l : list A) :
  filter P (f <$> l) = f <$> filter (fun x => P (f x)) l.
Proof.
  induction l as [|x l IH]; [done|]. rewrite fmap_cons.
  destruct (decide (P (f x))).
  - rewrite !filter_cons_True by done. by rewrite fmap_cons, IH.
  - by rewrite !filter_cons_False.
Qed.

Lemma matches_or_none_fmap {A B} (f : A -> B) (P : B -> Prop)
    `{forall x, Decision (P x)} (l : list A) :
  matches_or_none P (f <$> l)
  = (fun o : option A => f <$> o) <$> matches_or_none (fun x => P (f x)) l.
Proof.
  unfold matches_or_none. rewrite filter_fmap.
  destruct (filter (fun x => P (f x)) l) as [|m ms]; [done|].
  rewrite fmap_cons. cbn [fmap list_fmap option_fmap option_map]. f_equal.
  induction ms as [|a ms IH]; [done|]. cbn [fmap list_fmap option_fmap option_map].
  f_equal. apply IH.
Qed.

(** Deduplicating the images of rows keeps the images of the rows that
    are first with their key, when the key tells the images apart. *)
Lemma drop_dup_from_fmap {A B K} `{EqDecision B} `{EqDecision K}
    (f : A -> B) (key : A -> K) (l : list A) :
  (forall x y, f x = f y <-> key x = key y) ->
  forall seen,
    drop_dup_from id (f <$> seen) (f <$> l) = f <$> drop_dup_from key (key <$> seen) l.
Proof.
  intros Hkey. induction l as [|x l IH]; intros seen; [done|].
  rewrite fmap_cons. cbn [drop_dup_from id].
  assert (f x ∈ f <$> seen <-> key x ∈ key <$> seen) as Hiff.
  { rewrite !list_elem_of_fmap. split; intros (y & Hy & Hin); exists y; split;
      try done; by apply Hkey. }
  rewrite (bool_decide_ext _ _ Hiff). case_bool_decide; [apply IH|].
  rewrite fmap_cons. f_equal. apply (IH (x :: seen)).
Qed.

Lemma ec_meta_rows enzyme_raw :
  drop_dup_by id (to_meta <$> enzyme_raw) = to_meta <$> drop_dup_by meta_key enzyme_raw.
Proof.
  apply (drop_dup_from_fmap to_meta meta_key enzyme_raw) with (seen := []).
  intros [] []. unfold to_meta, meta_key. cbn. split; by intros [= -> -> -> -> ->].
Qed.

Lemma join_tables_rows enzyme_raw pairs uniprot_rows :
  join_tables enzyme_raw pairs uniprot_rows = joined_rows enzyme_raw pairs uniprot_rows.
Proof.
  unfold join_tables, joined_rows. rewrite !left_join_matches, flat_map_flat_map.
  apply flat_map_ext. intros p. rewrite flat_map_fmap.
  rewrite ec_meta_rows, matches_or_none_fmap, flat_map_fmap.
  apply flat_map_ext. intros e. apply list_fmap_ext. intros _ u _.
  by destruct e, u.
Qed.

(** C6: the joined table holds, for every pair in order, one row for
    every distinct metadata row of the classification table with the id
    of the pair (of the rows with the same metadata, the first stands
    for all) and every sequence row with its accession; the row
    carries the id and the accession of the pair, the name, alternative
    names, reaction and cross-references of the classification row and
    the sequence, length, organism, protein name and gene name of the
    sequence row, with missing values where a join finds no match (left
    joins).  The master table keeps, in order, exactly the joined rows
    whose sequence is neither missing nor the empty string. *)
Theorem merge_keeps_rows_with_sequence enzyme_raw pairs uniprot_rows :
  join_tables enzyme_raw pairs uniprot_rows = joined_rows enzyme_raw pairs uniprot_rows
  /\ merge_enzyme_uniprot enzyme_raw pairs uniprot_rows
     = filter (fun r => m_Sequence r <> None /\ m_Sequence r <> Some "")
              (joined_rows enzyme_raw pairs uniprot_rows)
  /\ (drop_dup_by meta_key enzyme_raw `sublist_of` enzyme_raw
      /\ forall k,
           filter (fun e => meta_key e = k) (drop_dup_by meta_key enzyme_raw)
           = option_list (head (filter (fun e => meta_key e = k) enzyme_raw)))
  /\ merge_enzyme_uniprot enzyme_raw pairs uniprot_rows
       `sublist_of` joined_rows enzyme_raw pairs uniprot_rows
  /\ (forall r, r ∈ joined_rows enzyme_raw pairs uniprot_rows ->
        (r ∈ merge_enzyme_uniprot enzyme_raw pairs uniprot_rows
         <-> ~ (m_Sequence r = None \/ m_Sequence r = Some "")))
  /\ (forall r, r ∈ merge_enzyme_uniprot enzyme_raw pairs uniprot_rows <->
        exists p e x s, p ∈ pairs /\ meta_match enzyme_raw p e
          /\ x ∈ uniprot_rows /\ UniProt_ID x = Expander.UniProt_ID p
          /\ Sequence x = Some s /\ s <> ""
          /\ r = Master (Expander.EC_number p) (Expander.UniProt_ID p)
                   (e ≫= Parser.row_Enzyme_name) (e ≫= Parser.row_Alt_names)
                   (e ≫= Parser.row_Reaction) (e ≫= Parser.row_Prosite_refs)
                   (Some s) (Length x) (Organism x) (Protein_name x) (Gene_name x)).
Proof.
  assert (merge_enzyme_uniprot enzyme_raw pairs uniprot_rows
          = filter (fun r => m_Sequence r <> None /\ m_Sequence r <> Some "")
                   (joined_rows enzyme_raw pairs uniprot_rows)) as Hmerge.
  { unfold merge_enzyme_uniprot. by rewrite join_tables_rows. }
  split_and!.
  - apply join_tables_rows.
  - done.
  - apply drop_dup_by_sublist.
  - intros k. apply drop_dup_by_first.
  - rewrite Hmerge. apply sublist_filter.
  - intros r Hr. rewrite Hmerge, list_elem_of_filter. tauto.
  - intros r. unfold merge_enzyme_uniprot. rewrite list_elem_of_filter.
    rewrite join_tables_elem. unfold has_sequence. split.
    + intros [[Hn He] (p & m & u & Hp & Hm & Hu & ->)].
      destruct Hu as [(x & Hx & Hk & ->)|[_ ->]]; [|done].
      simpl in *. destruct (Sequence x) as [s|] eqn:Es; [|done].
      destruct Hm as [(e & He0 & Hk0 & ->)|[Hno ->]].
      * exists p, (Some e), x, s. split_and!; try done.
        -- left. eauto.
        -- by intros ->.
        -- unfold add_uniprot, add_meta. simpl. by rewrite Es.
      * exists p, None, x, s. split_and!; try done.
        -- by right.
        -- by intros ->.
        -- unfold add_uniprot, add_meta. simpl. by rewrite Es.
    + intros (p & e & x & s & Hp & Hm & Hx & Hk & Hs & Hne & ->). simpl.
      split; [split; [done|by intros [= ->]]|].
      destruct Hm as [(e0 & He0 & Hk0 & ->)|[Hno ->]].
      * exists p, (Some (to_meta e0)), (Some x). split_and!; try done.
        -- left. eauto.
        -- left. eauto.
        -- unfold add_uniprot, add_meta. simpl. by rewrite Hs.
      * exists p, None, (Some x). split_and!; try done.
        -- by right.
        -- left. eauto.
        -- unfold add_uniprot, add_meta. simpl. by rewrite Hs.
Qed.

(** Two sequence rows for an accession give two rows, a pair without
    classification row keeps its place with missing metadata, and a
    pair without sequence row is dropped. *)
Example merge_left_joins :
  merge_enzyme_uniprot
    [Parser.Row (Some "1.1.1.1") (Some "alcohol dehydrogenase.") None
                (Some "an alcohol + NAD(+) = an aldehyde + NADH.") None
                (Some "P00330")]
    [Expander.Pair (Some "1.1.1.1") (Some "P00330");
     Expander.Pair (Some "9.9.9.9") (Some "P00331");
     Expander.Pair (Some "1.1.1.1") (Some "P00332")]
    [Uniprot (Some "P00330") (Some "MSIPE") (Some "5") None None None;
     Uniprot (Some "P00331") (Some "MSIPK") None None None None;
     Uniprot (Some "P00330") (Some "MSIPQ") None None None (Some "ADH1")]
  = [Master (Some "1.1.1.1") (Some "P00330") (Some "alcohol dehydrogenase.")
            None (Some "an alcohol + NAD(+) = an aldehyde + NADH.") None
            (Some "MSIPE") (Some "5") None None None;
     Master (Some "1.1.1.1") (Some "P00330") (Some "alcohol dehydrogenase.")
            None (Some "an alcohol + NAD(+) = an aldehyde + NADH.") None
            (Some "MSIPQ") None None None (Some "ADH1");
     Master (Some "9.9.9.9") (Some "P00331") None None None None
            (Some "MSIPK") None None None None].
Proof. vm_compute. reflexivity. Qed.

(** Scenario D of the specification: a retrieved sequence that is the
    empty string does not reach the master table. *)
Example merge_scenario_D :
  merge_enzyme_uniprot
    [Parser.Row (Some "1.1.1.1") (Some "alcohol dehydrogenase.") None None None
                (Some "P00330,X00001")]
    [Expander.Pair (Some "1.1.1.1") (Some "P00330");
     Expander.Pair (Some "1.1.1.1") (Some "X00001")]
    [Uniprot (Some "P00330") (Some "MSIPE") (Some "5") None None None;
     Uniprot (Some "X00001") (Some "") None None None None]
  = [Master (Some "1.1.1.1") (Some "P00330") (Some "alcohol dehydrogenase.")
            None None None (Some "MSIPE") (Some "5") None None None].
Proof. vm_compute. reflexivity. Qed.

End MergerFacts.

(** ** Batch fetcher: column normalization *)

Section NormalizeFacts.
Import PyStr Pandas Fetcher.

Lemma rename_absent old new df : old ∉ columns df -> rename old new df = df.
Proof.
  destruct df as [cols rows]. unfold rename. simpl. intros H. f_equal.
  induction cols as [|c cols IH]; [done|]. simpl.
  rewrite bool_decide_false by set_solver. f_equal. apply IH. set_solver.
Qed.

Lemma rename_known_frame df :
  rename_known df = Frame (canon <$> columns df) (data df).
Proof.
  unfold rename_known, canon. generalize rename_map. intros m. revert df.
  induction m as [|[old new] m IH]; intros [cols rows]; simpl.
  - by rewrite list_fmap_id.
  - assert ((if bool_decide (old ∈ cols) then rename old new (Frame cols rows)
             else Frame cols rows) = rename old new (Frame cols rows)) as ->.
    { case_bool_decide; [done|]. by rewrite rename_absent. }
    rewrite IH. unfold rename. simpl. f_equal.
    rewrite <- list_fmap_compose. by apply list_fmap_ext.
Qed.

(** The known labels are renamed to the canonical ones, which stay. *)
Lemma canon_rename_map :
  Forall (fun '(old, new) => canon old = new) rename_map
  /\ Forall (fun e => canon e = e) expected.
Proof. split; repeat constructor. Qed.

Lemma add_missing_frame labels : forall cols rows,
  exists added,
    fold_left add_step labels (Frame cols rows)
    = Frame (cols ++ added) ((fun r => r ++ replicate (length added) None) <$> rows)
    /\ NoDup added
    /\ (forall l, l ∈ added -> l ∉ cols)
    /\ (forall l, l ∈ labels -> l ∈ cols ++ added).
Proof.
  induction labels as [|l labels IH]; intros cols rows; simpl.
  - exists []. rewrite app_nil_r. split_and!; try done.
    + f_equal. rewrite <- (list_fmap_id rows) at 1. apply list_fmap_ext.
      intros ? r _. simpl. by rewrite app_nil_r.
    + constructor.
    + intros l Hl. by apply elem_of_nil in Hl.
    + intros l Hl. by apply elem_of_nil in Hl.
  - unfold add_step at 2. simpl. case_bool_decide as Hl.
    + destruct (IH cols rows) as (added & -> & Hnd & Hdis & Hall).
      exists added. split_and!; try done.
      intros l' [->|Hl']%elem_of_cons; [set_solver|by apply Hall].
    + unfold add_na_column. simpl.
      destruct (IH (cols ++ [l]) ((fun r => r ++ [None]) <$> rows))
        as (added & -> & Hnd & Hdis & Hall).
      exists (l :: added). split_and!.
      * f_equal; [by rewrite <- app_assoc|].
        rewrite <- list_fmap_compose. apply list_fmap_ext. intros ? r _. simpl.
        by rewrite <- app_assoc.
      * apply NoDup_cons. split; [|done]. intros Hin. apply Hdis in Hin. set_solver.
      * intros l' [->|Hl']%elem_of_cons; [done|]. apply Hdis in Hl'. set_solver.
      * intros l' [->|Hl']%elem_of_cons; [set_solver|].
        apply Hall in Hl'. set_solver.
Qed.

Lemma pick_app label cols1 cols2 r1 r2 :
  length r1 = length cols1 ->
  pick label (cols1 ++ cols2) (r1 ++ r2) = pick label cols1 r1 ++ pick label cols2 r2.
Proof.
  revert r1. induction cols1 as [|c cols1 IH]; intros [|v r1] Hlen;
    simpl in *; try done; try lia.
  case_bool_decide; simpl; rewrite IH by lia; done.
Qed.

Lemma pick_length label cols r :
  length r = length cols -> length (pick label cols r) = length (filter (fun c => c = label) cols).
Proof.
  revert r. induction cols as [|c cols IH]; intros [|v r] Hlen; simpl in *; try done.
  case_bool_decide.
  - rewrite filter_cons_True by done. simpl. rewrite IH; [done|lia].
  - rewrite filter_cons_False by done. apply IH. lia.
Qed.

Lemma pick_nones label cols :
  pick label cols (replicate (length cols) None)
  = replicate (length (filter (fun c => c = label) cols)) None.
Proof.
  induction cols as [|c cols IH]; simpl; [done|].
  case_bool_decide.
  - rewrite filter_cons_True by done. simpl. by rewrite IH.
  - by rewrite filter_cons_False.
Qed.

Lemma filter_eq_absent (label : string) cols :
  label ∉ cols -> filter (fun c => c = label) cols = [].
Proof.
  intros H. induction cols as [|c cols IH]; [done|].
  rewrite filter_cons_False by set_solver. apply IH. set_solver.
Qed.

Lemma filter_eq_NoDup (label : string) cols :
  NoDup cols -> label ∈ cols -> filter (fun c => c = label) cols = [label].
Proof.
  induction 1 as [|c cols Hc Hnd IH]; intros Hin; [by apply elem_of_nil in Hin|].
  destruct (decide (c = label)) as [->|Hne].
  - rewrite filter_cons_True by done. by rewrite filter_eq_absent.
  - rewrite filter_cons_False by done. apply IH. set_solver.
Qed.

Lemma filter_eq_once (label : string) cols :
  label ∈ cols -> length (filter (fun c => c = label) cols) <= 1 ->
  filter (fun c => c = label) cols = [label].
Proof.
  intros Hin Hlen.
  assert (label ∈ filter (fun c => c = label) cols) as Hf
    by (by apply list_elem_of_filter).
  destruct (filter (fun c => c = label) cols) as [|a [|b l]] eqn:E;
    simpl in Hlen; [by apply elem_of_nil in Hf| |lia].
  by apply list_elem_of_singleton in Hf as ->.
Qed.

Lemma filter_canon (label : string) (cols : list string) :
  filter (fun c => c = label) (canon <$> cols)
  = canon <$> filter (fun c => canon c = label) cols.
Proof.
  induction cols as [|c cols IH]; [done|]. rewrite fmap_cons.
  destruct (decide (canon c = label)).
  - rewrite (filter_cons_True _ (canon c)), (filter_cons_True _ c) by done.
    by rewrite fmap_cons, IH.
  - by rewrite (filter_cons_False _ (canon c)), (filter_cons_False _ c).
Qed.

End NormalizeFacts.

Section NormalizeMain.
Import PyStr Pandas Fetcher.

Lemma flat_map_singletons {A B} (f : A -> list B) (g : A -> B) (l : list A) :
  (forall x, x ∈ l -> f x = [g x]) -> flat_map f l = g <$> l.
Proof.
  induction l as [|x l IH]; intros H; simpl; [done|].
  rewrite H by left. rewrite IH; [done|]. intros y Hy. apply H. by right.
Qed.

Lemma label_once (cols added : list string) e :
  length (filter (fun c => c = e) cols) <= 1 ->
  NoDup added -> (forall l, l ∈ added -> l ∉ cols) -> e ∈ cols ++ added ->
  filter (fun c => c = e) (cols ++ added) = [e]
  /\ ((e ∈ cols /\ filter (fun c => c = e) added = [])
      \/ ((e ∉ cols) /\ filter (fun c => c = e) added = [e])).
Proof.
  intros Hlen Hnd Hdis Hin. rewrite filter_app.
  destruct (decide (e ∈ cols)) as [Hc|Hc].
  - assert (filter (fun c => c = e) added = []) as Ha.
    { apply filter_eq_absent. intros Ha. by apply Hdis in Ha. }
    rewrite Ha, app_nil_r, filter_eq_once by done. auto.
  - assert (e ∈ added) as Ha by set_solver.
    rewrite (filter_eq_absent e cols), (filter_eq_NoDup e added) by done. auto.
Qed.

(** On a well-shaped response that carries no canonical field twice, the
    normalization yields the canonical columns; the cells of a field are
    those of the response column renamed to it, and missing values when
    no column is. *)
Lemma normalize_canonical df :
  frame_ok df -> unambiguous df ->
  normalize df
  = Ok (Frame expected
          ((fun r => (fun e => lookup_cell e (canon <$> columns df) r) <$> expected)
             <$> data df)).
Proof.
  intros Hok Hun. unfold normalize. rewrite rename_known_frame. unfold add_missing.
  destruct (add_missing_frame expected (canon <$> columns df) (data df))
    as (added & -> & Hnd & Hdis & Hall).
  assert (forall e, e ∈ expected ->
            length (filter (fun c => c = e) (canon <$> columns df)) <= 1) as Hlen.
  { intros e He. rewrite filter_canon, length_fmap.
    unfold unambiguous in Hun. rewrite Forall_forall in Hun. by apply Hun. }
  unfold select. cbn [columns data].
  rewrite bool_decide_true by (by apply Forall_forall).
  f_equal. f_equal.
  - rewrite (flat_map_singletons _ id); [by rewrite list_fmap_id|].
    intros e He. by apply label_once; auto.
  - rewrite <- list_fmap_compose. apply list_fmap_ext. intros i r Hr.
    unfold compose. cbv beta.
    assert (length r = length (canon <$> columns df)) as Hr'.
    { rewrite length_fmap. unfold frame_ok in Hok. rewrite Forall_forall in Hok.
      apply Hok. by eapply list_elem_of_lookup_2. }
    apply flat_map_singletons. intros e He.
    rewrite pick_app, pick_nones by done.
    pose proof (pick_length e _ r Hr') as Hpl.
    destruct (label_once (canon <$> columns df) added e) as [_ [[Hc Ha]|[Hc Ha]]];
      auto; rewrite Ha; simpl.
    + rewrite filter_eq_once in Hpl by auto. unfold lookup_cell.
      destruct (pick e (canon <$> columns df) r) as [|v [|? ?]]; simpl in *; try lia.
      done.
    + rewrite filter_eq_absent in Hpl by done. unfold lookup_cell.
      destruct (pick e (canon <$> columns df) r); simpl in *; [done|lia].
Qed.

Section Schema.
Variable http_get : string -> http_outcome.
Variable read_csv : string -> res DataFrame.

Lemma fetch_uniprot_batch_success accessions text :
  accessions <> [] ->
  http_get (build_accession_query accessions) = Response 200 text ->
  strip text <> "" ->
  fetch_uniprot_batch http_get read_csv accessions
  = bind (read_csv (strip text)) normalize.
Proof.
  intros Hne Hget Htext. unfold fetch_uniprot_batch.
  rewrite bool_decide_false by done. rewrite Hget.
  rewrite bool_decide_false by (by intros H; apply H).
  by rewrite bool_decide_false.
Qed.

(** C9, amended: for a non-empty successful response whose table is
    well shaped and carries every canonical field under at most one
    label, the output of the fetcher for the batch has exactly the
    canonical columns, in the canonical order; each holds the cells of
    the response column whose label is renamed to it, and missing
    values when the response has no such column. *)
Theorem fetch_uniprot_batch_schema accessions text df :
  accessions <> [] ->
  http_get (build_accession_query accessions) = Response 200 text ->
  strip text <> "" ->
  read_csv (strip text) = Ok df ->
  frame_ok df -> unambiguous df ->
  exists out,
    fetch_uniprot_batch http_get read_csv accessions = Ok out
    /\ columns out = expected
    /\ data out
       = (fun r => (fun e => lookup_cell e (canon <$> columns df) r) <$> expected)
           <$> data df
    /\ Forall (fun '(old, new) => canon old = new) rename_map
    /\ forall e r, e ∈ expected -> e ∉ canon <$> columns df ->
         lookup_cell e (canon <$> columns df) r = None.
Proof.
  intros Hne Hget Htext Hcsv Hok Hun.
  rewrite (fetch_uniprot_batch_success accessions text) by done.
  rewrite Hcsv. simpl. rewrite normalize_canonical by done.
  eexists. split_and!; try done.
  - apply canon_rename_map.
  - intros e r _ He. unfold lookup_cell.
    assert (forall cols r', e ∉ cols -> pick e cols r' = []) as Hpick.
    { clear. induction cols as [|c cols IH]; intros [|v r'] Hc; simpl; try done.
      rewrite bool_decide_false by set_solver. apply IH. set_solver. }
    by rewrite Hpick.
Qed.

End Schema.

End NormalizeMain.

(** ** Batch fetcher: chunks *)

Section FetcherFacts.
Import PyStr Pandas Fetcher FetcherSpec Samples.

(** C9, as stated, fails: two known labels of one field give the output
    two columns of that field. *)
Lemma two_synonyms_repeat_a_column :
  exists out,
    fetch_uniprot_batch sample_get twin_csv ["P00330"] = Ok out
    /\ columns out
       = ["UniProt_ID"; "UniProt_ID"; "Sequence"; "Length"; "Organism";
          "Protein_name"; "Gene_name"]
    /\ columns out <> expected.
Proof. eexists. vm_compute. split_and!; [reflexivity|reflexivity|discriminate]. Qed.

Lemma fetch_uniprot_batch_schema_witness :
  exists out,
    fetch_uniprot_batch sample_get sample_csv ["P00330"; "P00331"] = Ok out
    /\ columns out = expected.
Proof.
  destruct (fetch_uniprot_batch_schema sample_get sample_csv
              ["P00330"; "P00331"] "Entry Organism Sequence" sample_frame)
    as (out & Hout & Hcols & _).
  - discriminate.
  - vm_compute. reflexivity.
  - vm_compute. discriminate.
  - reflexivity.
  - repeat constructor.
  - apply (bool_decide_unpack _). vm_compute. exact I.
  - exists out. split; assumption.
Defined.

Lemma bind_ok {A} (m : res A) : bind m Ok = m.
Proof. by destruct m. Qed.

Section Chunks.
Variable http_get : string -> http_outcome.
Variable read_csv : string -> res DataFrame.

#[local] Abbreviation fetch_uniprot_batch := (fetch_uniprot_batch http_get read_csv).
#[local] Abbreviation fetch_all := (fetch_all http_get read_csv).
#[local] Abbreviation chunk_fails := (chunk_fails http_get).
#[local] Abbreviation download_uniprot_batch := (download_uniprot_batch http_get read_csv).
#[local] Abbreviation chunk_yields := (chunk_yields http_get read_csv).

Lemma fetch_failed chunk :
  chunk_fails chunk -> fetch_uniprot_batch chunk = Ok empty_frame.
Proof.
  unfold Fetcher.chunk_fails, Fetcher.fetch_uniprot_batch.
  case_bool_decide; [done|].
  destruct (http_get _) as [|code text]; [done|].
  intros [Hcode|Htext].
  - by rewrite bool_decide_true.
  - case_bool_decide; [done|]. by rewrite bool_decide_true.
Qed.

Lemma fetch_all_cons_failed chunk rest :
  chunk_fails chunk -> fetch_all (chunk :: rest) = fetch_all rest.
Proof.
  intros H. simpl. rewrite fetch_failed by done. simpl.
  by destruct (Fetcher.fetch_all _ _ rest).
Qed.

Lemma fetch_all_skip pre chunk post :
  chunk_fails chunk -> fetch_all (pre ++ chunk :: post) = fetch_all (pre ++ post).
Proof.
  intros H. induction pre as [|c pre IH].
  - by apply fetch_all_cons_failed.
  - simpl. by rewrite IH.
Qed.

Lemma fetch_all_succeeded chunks :
  fetch_all chunks = fetch_all (filter (fun c => ~ chunk_fails c) chunks).
Proof.
  induction chunks as [|c chunks IH]; [done|].
  destruct (decide (chunk_fails c)) as [Hc|Hc].
  - rewrite filter_cons_False by (by intros H; apply H).
    by rewrite fetch_all_cons_failed.
  - rewrite filter_cons_True by done. simpl. by rewrite IH.
Qed.

Lemma fetch_yields chunk table :
  chunk_yields chunk table -> fetch_uniprot_batch chunk = Ok table.
Proof.
  intros (Hne & text & df & Hget & Htext & Hcsv & Hnorm).
  rewrite (fetch_uniprot_batch_success _ _ chunk text) by done.
  by rewrite Hcsv.
Qed.

(** The loop gathers the tables of the chunks that succeed, in order,
    the empty ones left out. *)
Lemma fetch_all_gathers chunks : forall tables,
  Forall2 chunk_yields (filter (fun c => ~ chunk_fails c) chunks) tables ->
  fetch_all chunks = Ok (filter (fun t => is_empty t = false) tables).
Proof.
  induction chunks as [|c chunks IH]; intros tables H.
  - rewrite filter_nil in H. by apply Forall2_nil_inv_l in H as ->.
  - destruct (decide (chunk_fails c)) as [Hc|Hc].
    + rewrite filter_cons_False in H by (by intros Hn; apply Hn).
      rewrite fetch_all_cons_failed by done. by apply IH.
    + rewrite filter_cons_True in H by done.
      apply Forall2_cons_inv_l in H as (t & ts & Ht & Hts & ->).
      simpl. rewrite (fetch_yields c t Ht). simpl. rewrite (IH ts Hts). simpl.
      f_equal. destruct (is_empty t) eqn:E.
      * rewrite filter_cons_False; [done|]. by rewrite E.
      * by rewrite filter_cons_True.
Qed.

Lemma download_gathered uniprot_id chunk_size chunks tables :
  chunk_list (Reconciler.sorted (drop_dup_by id (omap id uniprot_id))) chunk_size
    = Ok chunks ->
  Forall2 chunk_yields (filter (fun c => ~ chunk_fails c) chunks) tables ->
  download_uniprot_batch uniprot_id chunk_size
  = collect (filter (fun t => is_empty t = false) tables).
Proof.
  intros Hchunks Hy. unfold Fetcher.download_uniprot_batch.
  rewrite Hchunks. cbn [bind]. by rewrite (fetch_all_gathers chunks tables).
Qed.

Lemma key_is_accession r :
  length r = length expected ->
  flat_map (fun l => pick l expected r) ["UniProt_ID"] = [accession_of r].
Proof.
  intros H. destruct r as [|v1 [|v2 [|v3 [|v4 [|v5 [|v6 [|v7 r]]]]]]]; try done.
Qed.

Lemma drop_dup_from_wrap {A K} `{EqDecision K} (key1 : A -> list K) (key2 : A -> K) l :
  (forall x, x ∈ l -> key1 x = [key2 x]) ->
  forall seen,
    drop_dup_from key1 ((fun k => [k]) <$> seen) l = drop_dup_from key2 seen l.
Proof.
  induction l as [|x l IH]; intros Hkey seen; simpl; [done|].
  rewrite (Hkey x) by left.
  assert (([key2 x] ∈ (fun k => [k]) <$> seen) <-> key2 x ∈ seen) as Hiff.
  { rewrite list_elem_of_fmap. split; [by intros (k & [= ->] & Hk)|eauto]. }
  rewrite (bool_decide_ext _ _ Hiff). case_bool_decide.
  - apply IH. intros y Hy. apply Hkey. by right.
  - f_equal. rewrite <- (IH (fun y Hy => Hkey y (list_elem_of_further _ _ _ Hy)) (key2 x :: seen)).
    done.
Qed.

Lemma collect_canonical all_dfs :
  Forall canonical all_dfs ->
  collect all_dfs
  = Ok (match all_dfs with
        | [] => None
        | _ => Some (Frame expected (drop_dup_by accession_of (flat_map data all_dfs)))
        end).
Proof.
  intros Hall. destruct all_dfs as [|d ds]; [done|].
  unfold collect, concat.
  assert (columns d = expected) as Hd by (by inversion Hall as [|? ? [? ?]]).
  rewrite bool_decide_true.
  2:{ eapply Forall_impl; [exact Hall|]. intros d' [-> _]. by rewrite Hd. }
  cbn [bind]. unfold drop_duplicates. cbn [columns data]. rewrite Hd.
  rewrite bool_decide_true by (repeat constructor; set_solver).
  cbn [bind]. do 3 f_equal. unfold drop_dup_by.
  refine (drop_dup_from_wrap _ accession_of (flat_map data (d :: ds)) _ []).
  intros r (d' & Hd' & Hr)%elem_of_flat_map. apply key_is_accession.
  rewrite Forall_forall in Hall. destruct (Hall d' Hd') as [Hc Hok].
  unfold frame_ok in Hok. rewrite Forall_forall in Hok. rewrite <- Hc. by apply Hok.
Qed.

Lemma normalize_frame_ok df out :
  frame_ok df -> unambiguous df -> normalize df = Ok out -> canonical out.
Proof.
  intros Hok Hun. rewrite normalize_canonical by done. intros [= <-].
  split; [done|]. unfold frame_ok. cbn [columns data].
  apply Forall_fmap, Forall_forall. intros r _. reflexivity.
Qed.

Lemma rows_of_gathered tables :
  Forall canonical tables ->
  flat_map data (filter (fun t => is_empty t = false) tables) = flat_map data tables.
Proof.
  induction 1 as [|t ts [Hcols _] _ IH]; [done|].
  destruct (is_empty t) eqn:E.
  - rewrite filter_cons_False by (by rewrite E). rewrite IH. cbn [flat_map].
    unfold is_empty in E. rewrite Hcols in E.
    rewrite bool_decide_false in E by done.
    apply bool_decide_eq_true in E. by rewrite E.
  - rewrite filter_cons_True by done. cbn [flat_map]. by rewrite IH.
Qed.

(** What follows the loop, for tables with the canonical columns: no
    table when no row was fetched, otherwise the rows of the tables, in
    order, each accession kept with its first row only. *)
Lemma collect_gathered tables :
  Forall canonical tables ->
  collect (filter (fun t => is_empty t = false) tables)
  = Ok (match flat_map data tables with
        | [] => None
        | rows => Some (Frame expected (drop_dup_by accession_of rows))
        end).
Proof.
  intros Hall. rewrite collect_canonical.
  2:{ apply Forall_forall. intros t [_ Ht]%list_elem_of_filter.
      rewrite Forall_forall in Hall. by apply Hall. }
  rewrite <- (rows_of_gathered tables Hall).
  pose proof (list_elem_of_filter (fun t => is_empty t = false) tables) as Hin.
  destruct (filter (fun t => is_empty t = false) tables) as [|t ts]; [done|].
  destruct (proj1 (Hin t)) as [Ht _]; [left|].
  unfold is_empty in Ht. apply orb_false_iff in Ht as [_ Ht].
  apply bool_decide_eq_false in Ht. cbn [flat_map].
  by destruct (data t).
Qed.

(** C3: whatever the outcomes of the chunks (each one fails, with a
    transport error, a status other than 200 or a blank body, or
    succeeds with a table), a chunk that fails raises nothing and
    yields the empty table, and the loop gathers exactly the tables of
    the chunks that succeed, in order, the empty ones left out.  The
    download returns what the code after the loop makes of these
    tables: no table when there is none, otherwise their stacked rows
    without repeated accessions; for tables with the canonical columns
    these are the rows of the chunks that succeed, in order, each
    accession with its first row. *)
Theorem failed_chunk_is_skipped chunks tables :
  Forall2 chunk_yields (filter (fun c => ~ chunk_fails c) chunks) tables ->
  let gathered := filter (fun t => is_empty t = false) tables in
  (forall c, c ∈ chunks -> chunk_fails c -> fetch_uniprot_batch c = Ok empty_frame)
  /\ fetch_all chunks = Ok gathered
  /\ (forall uniprot_id chunk_size,
        chunk_list (Reconciler.sorted (drop_dup_by id (omap id uniprot_id))) chunk_size
          = Ok chunks ->
        download_uniprot_batch uniprot_id chunk_size
        = match gathered with
          | [] => Ok None
          | _ => bind (concat gathered) (fun df =>
                 bind (drop_duplicates ["UniProt_ID"] df) (fun df_all =>
                 Ok (Some df_all)))
          end
        /\ (Forall canonical tables ->
            let rows := flat_map data tables in
            let kept := drop_dup_by accession_of rows in
            download_uniprot_batch uniprot_id chunk_size
            = Ok (match rows with
                  | [] => None
                  | _ => Some (Frame expected kept)
                  end)
            /\ kept `sublist_of` rows
            /\ (forall acc, acc ∈ accession_of <$> kept <-> acc ∈ accession_of <$> rows))).
Proof.
  intros Hy gathered. split_and!.
  - intros c _. apply fetch_failed.
  - by apply fetch_all_gathers.
  - intros uniprot_id chunk_size Hchunks.
    rewrite (download_gathered _ _ chunks tables) by done. split; [done|].
    intros Hall rows kept. split_and!.
    + rewrite collect_gathered by done. fold rows. by destruct rows.
    + apply drop_dup_by_sublist.
    + intros acc. apply drop_dup_by_keys.
Qed.


End Chunks.


Lemma sample_chunk_succeeds :
  ~ chunk_fails sample_get ["P00330"; "P00331"]
  /\ ~ chunk_fails sample_get ["P00333"]
  /\ chunk_yields sample_get sample_csv ["P00330"; "P00331"] sample_table
  /\ chunk_yields sample_get sample_csv ["P00333"] sample_table
  /\ canonical sample_table.
Proof.
  assert (forall chunk, chunk <> [] ->
            sample_get (build_accession_query chunk) = Response 200 "Entry Organism Sequence" ->
            ~ chunk_fails sample_get chunk
            /\ chunk_yields sample_get sample_csv chunk sample_table) as H.
  { intros chunk Hne Hget. split.
    - unfold chunk_fails. rewrite Hget. intros [Hn|Hn]; [by apply Hn|].
      vm_compute in Hn. discriminate.
    - split; [done|]. exists "Entry Organism Sequence", sample_frame.
      split_and!; [done|vm_compute; discriminate|reflexivity|vm_compute; reflexivity]. }
  destruct (H ["P00330"; "P00331"]) as [H1 H2]; [discriminate|reflexivity|].
  destruct (H ["P00333"]) as [H3 H4]; [discriminate|reflexivity|].
  split_and!; try done. split; [reflexivity|repeat constructor].
Defined.

Lemma failed_chunk_is_skipped_witness :
  fetch_all sample_get sample_csv [["P00330"; "P00331"]; ["P00332"]] = Ok [sample_table]
  /\ download_uniprot_batch sample_get sample_csv
       [Some "P00330"; Some "P00331"; Some "P00332"] 2
     = Ok (Some sample_table).
Proof.
  destruct sample_chunk_succeeds as (Hok & _ & Hy & _ & Hcanon).
  assert (chunk_fails sample_get ["P00332"]) as Hfail by exact I.
  destruct (failed_chunk_is_skipped sample_get sample_csv
              [["P00330"; "P00331"]; ["P00332"]] [sample_table])
    as (_ & Hall & Hdl).
  { rewrite filter_cons_True by done.
    rewrite filter_cons_False by (by intros Hn; apply Hn).
    rewrite filter_nil. apply List.Forall2_cons; [exact Hy|apply List.Forall2_nil]. }
  split; [exact Hall|].
  destruct (Hdl [Some "P00330"; Some "P00331"; Some "P00332"] 2%Z) as [_ Hrows];
    [vm_compute; reflexivity|].
  destruct Hrows as [Hrows _]; [apply List.Forall_cons; [exact Hcanon|apply List.Forall_nil]|].
  exact Hrows.
Defined.


(** Scenario C of the specification: the chunk of [P00332] meets a
    transport error; the table holds the entries of the first chunk and
    the reconciler reports [P00332]. *)
Example fetch_scenario_C :
  download_uniprot_batch sample_get sample_csv
    [Some "P00330"; Some "P00331"; Some "P00332"] 2
  = Ok (Some (Frame expected
                [[Some "P00330"; Some "MSIPE"; None;
                  Some "Saccharomyces cerevisiae"; None; None];
                 [Some "P00331"; Some "MSIPK"; None; None; None; None]]))
  /\ Reconciler.missing {["P00330"; "P00331"; "P00332"]} {["P00330"; "P00331"]}
     = ["P00332"].
Proof. split; vm_compute; reflexivity. Qed.

End FetcherFacts.

(** ** Record parser: further properties *)

Section ParserMore.
Import PyStr Regex Tokens Parser Entries Views.

(** X1: whatever the file, the ids of the emitted rows are, in order,
    the ids of the [ID] lines that carry one: every such line yields
    exactly one row, also when an entry is closed by the next [ID] line
    instead of a [//] line. *)
Theorem rows_follow_id_lines lines :
  row_EC_number <$> parse_enzyme_dat lines = Some <$> ids_of lines.
Proof. apply parse_ids. Qed.

Lemma step_ignored st l : ignored_line l -> step st l = st.
Proof.
  unfold ignored_line, known_codes, line_code, step. intros H.
  case_bool_decide; [done|].
  repeat (let Hc := fresh "Hc" in
          case_bool_decide as Hc; [exfalso; apply H; rewrite Hc; set_solver|]).
  done.
Qed.

Lemma fold_step_ignored lines : forall st,
  fold_left step (filter (fun l => ~ ignored_line l) lines) st = fold_left step lines st.
Proof.
  induction lines as [|l lines IH]; intros st; [done|].
  destruct (decide (ignored_line l)) as [Hl|Hl].
  - rewrite filter_cons_False by (by intros H; apply H).
    cbn [fold_left]. by rewrite step_ignored, IH.
  - rewrite filter_cons_True by done. cbn [fold_left]. apply IH.
Qed.

(** X2: blank lines and lines with a code the parser does not know can
    be removed from a file without changing the rows. *)
Theorem ignored_lines_do_not_matter lines :
  parse_enzyme_dat (filter (fun l => ~ ignored_line l) lines) = parse_enzyme_dat lines.
Proof. unfold parse_enzyme_dat. by rewrite fold_step_ignored. Qed.

Lemma flush_entry_extends st : st.2 `prefix_of` (flush_entry st).2.
Proof.
  destruct st as [cur rows]. unfold flush_entry.
  destruct (EC_number cur); [by apply prefix_app_r|done].
Qed.

Lemma step_extends st l : st.2 `prefix_of` (step st l).2.
Proof.
  unfold step. case_bool_decide; [done|].
  case_bool_decide.
  { destruct (EC_number st.1).
    - pose proof (flush_entry_extends st) as Hst. by destruct (flush_entry st).
    - by destruct st. }
  repeat (case_bool_decide; [done|]).
  case_bool_decide; [apply flush_entry_extends|done].
Qed.

Lemma fold_step_extends lines : forall st, st.2 `prefix_of` (fold_left step lines st).2.
Proof.
  induction lines as [|l lines IH]; intros st; [done|].
  cbn [fold_left]. etrans; [apply step_extends|apply IH].
Qed.

(** X3: a row, once appended, stays: the rows appended while a part of
    the file is read are an initial segment of the rows of the whole
    file, whatever follows. *)
Theorem appended_rows_stay lines1 lines2 :
  rows_after lines1 `prefix_of` parse_enzyme_dat (lines1 ++ lines2).
Proof.
  unfold rows_after, parse_enzyme_dat. rewrite fold_left_app.
  etrans; [apply fold_step_extends|apply flush_entry_extends].
Qed.

(** X4: an entry that is alone in its file, with or without a closing
    [//] line, yields one row; it holds the id of the [ID] line and the
    contents of the entry's own lines: those of the [DE], [AN] and [CA]
    lines joined by a space, those of the [PR] lines joined by ["; "],
    and the accessions of the [DR] lines joined by commas. *)
Theorem single_entry_row id_line body closing i :
  is_id_line id_line -> line_id id_line = Some i ->
  Forall (fun l => ~ is_id_line l /\ ~ is_end_line l) body ->
  Forall is_end_line closing ->
  parse_enzyme_dat (id_line :: body ++ closing)
  = [Row (Some i)
         (or_none (join " " (contents_with "DE" body)))
         (or_none (join " " (contents_with "AN" body)))
         (or_none (join " " (contents_with "CA" body)))
         (or_none (join "; " (contents_with "PR" body)))
         (or_none (join "," (accessions_of body)))].
Proof. apply parse_single_entry. Qed.

Lemma single_entry_row_witness :
  parse_enzyme_dat
    ("ID   1.1.1.1"
       :: ["DE   alcohol"; "CC   a comment"; "DE   dehydrogenase.";
           "PR   PROSITE; PDOC00058;";
           "DR   P00330, ADH1_YEAST ;  P00331, ADH2_YEAST ;"]
       ++ ["//"])
  = [Row (Some "1.1.1.1") (Some "alcohol dehydrogenase.") None None
         (Some "PROSITE; PDOC00058;") (Some "P00330,P00331")].
Proof.
  rewrite (single_entry_row "ID   1.1.1.1"
             ["DE   alcohol"; "CC   a comment"; "DE   dehydrogenase.";
              "PR   PROSITE; PDOC00058;";
              "DR   P00330, ADH1_YEAST ;  P00331, ADH2_YEAST ;"]
             ["//"] "1.1.1.1").
  - vm_compute. reflexivity.
  - vm_compute. reflexivity.
  - reflexivity.
  - repeat constructor; vm_compute; discriminate.
  - repeat constructor.
Defined.

Lemma runs_from_elem p l : forall cur t,
  t ∈ runs_from p cur l -> Forall (fun c => p c = true) cur ->
  t <> [] /\ Forall (fun c => p c = true) t.
Proof.
  induction l as [|c l IH]; intros cur t Ht Hcur; simpl in Ht.
  - destruct cur; [by apply elem_of_nil in Ht|].
    by apply list_elem_of_singleton in Ht as ->.
  - destruct (p c) eqn:Hc.
    + apply (IH _ _ Ht). apply Forall_app. split; [done|]. by constructor.
    + apply elem_of_app in Ht as [Ht|Ht].
      * destruct cur; [by apply elem_of_nil in Ht|].
        by apply list_elem_of_singleton in Ht as ->.
      * apply (IH _ _ Ht). constructor.
Qed.

Lemma line_id_token l i : line_id l = Some i -> i <> "" /\ no_space i.
Proof.
  unfold line_id, split. intros H.
  assert (i ∈ str <$> runs (fun c => negb (is_space c)) (chars (line_content l)))
    as (t & -> & Ht)%list_elem_of_fmap.
  { revert H. generalize (str <$> runs (fun c => negb (is_space c))
                                   (chars (line_content l))).
    intros [|x xs] H; [done|]. injection H as ->. left. }
  apply runs_from_elem in Ht as [Hne Hall]; [|constructor].
  split.
  - intros Hs. apply Hne. by rewrite <- (chars_str t), Hs.
  - unfold no_space. rewrite chars_str. eapply Forall_impl; [exact Hall|].
    intros c Hc. cbv beta in Hc. by destruct (is_space c).
Qed.

(** X6: the id of every emitted row is a token: it is not empty and has
    no whitespace in it. *)
Theorem parsed_ids_are_tokens lines r :
  r ∈ parse_enzyme_dat lines ->
  exists i, row_EC_number r = Some i /\ i <> "" /\ no_space i.
Proof.
  intros Hr.
  assert (row_EC_number r ∈ Some <$> ids_of lines) as Hin.
  { rewrite <- parse_ids. by apply list_elem_of_fmap_2. }
  apply list_elem_of_fmap in Hin as (i & Hi & Hin). exists i. split; [done|].
  unfold ids_of in Hin. apply list_elem_of_omap in Hin as (l & _ & Hl).
  by apply line_id_token in Hl.
Qed.

Lemma parsed_ids_are_tokens_witness :
  exists i, row_EC_number
              (Row (Some "1.1.1.1") (Some "alcohol dehydrogenase.") None None None
                   (Some "P00330"))
            = Some i /\ i <> "" /\ no_space i.
Proof.
  apply (parsed_ids_are_tokens
           ["ID   1.1.1.1   extra words"; "DE   alcohol dehydrogenase.";
            "DR   P00330, ADH1_YEAST ;"]).
  vm_compute. left.
Defined.

Lemma flush_entry_row_of cur rows :
  flush_entry (cur, rows)
  = match EC_number cur with
    | Some _ => (fresh, rows ++ [row_of cur])
    | None => (cur, rows)
    end.
Proof. reflexivity. Qed.

Section Invariant.

(** A property [Q] of the collected accessions that every [DR] line
    keeps gives a property [P] of the rows that every flush
    establishes. *)
Variable Q : list string -> Prop.
Variable P : row -> Prop.
Hypothesis Q_nil : Q [].
Hypothesis Q_dr : forall accs content, Q accs -> Q (accs ++ dr_accessions content).
Hypothesis P_row : forall cur, Q (UniProt_IDs cur) -> P (row_of cur).

#[local] Abbreviation state_inv := (state_inv Q P).

Lemma flush_entry_inv st : state_inv st -> state_inv (flush_entry st).
Proof.
  destruct st as [cur rows]. intros [Hq Hp]. rewrite flush_entry_row_of.
  destruct (EC_number cur); [|done].
  split; [exact Q_nil|]. apply Forall_app. split; [done|].
  constructor; [by apply P_row|constructor].
Qed.

Lemma step_inv st l : state_inv st -> state_inv (step st l).
Proof.
  intros Hst. unfold step. case_bool_decide; [done|].
  case_bool_decide.
  { assert (state_inv (match EC_number st.1 with
                       | Some _ => flush_entry st | None => st end)) as Hst'
      by (destruct (EC_number st.1); [by apply flush_entry_inv|done]).
    destruct (match EC_number st.1 with Some _ => _ | None => _ end) as [cur rows].
    exact Hst'. }
  destruct st as [cur rows]. destruct Hst as [Hq Hp]. cbn [fst snd] in *.
  repeat (case_bool_decide; [by split|]).
  case_bool_decide; [split; [by apply Q_dr|done]|].
  case_bool_decide; [by apply flush_entry_inv|done].
Qed.

Lemma parse_rows_inv lines : Forall P (parse_enzyme_dat lines).
Proof.
  unfold parse_enzyme_dat.
  assert (forall st, state_inv st -> state_inv (fold_left step lines st)) as Hfold.
  { induction lines as [|l lines IH]; intros st Hst; [done|].
    cbn [fold_left]. by apply IH, step_inv. }
  apply flush_entry_inv, Hfold. split; [exact Q_nil|constructor].
Qed.

End Invariant.

Lemma or_none_not_empty s : or_none s <> Some "".
Proof. unfold or_none. case_bool_decide; congruence. Qed.

(** X7: no text field of an emitted row is the empty string: a field
    whose joined text is empty is missing, for every field and every
    file. *)
Theorem text_fields_are_missing_or_not_empty lines r :
  r ∈ parse_enzyme_dat lines -> Forall (fun v => v <> Some "") (text_fields r).
Proof.
  revert r. apply Forall_forall.
  apply (parse_rows_inv (fun _ => True)); [done|done|].
  intros cur _. unfold text_fields, row_of. cbn.
  repeat constructor; apply or_none_not_empty.
Qed.

Lemma text_fields_are_missing_or_not_empty_witness :
  Forall (fun v => v <> Some "")
         (text_fields (Row (Some "1.1.1.1") None None None None None)).
Proof.
  apply (text_fields_are_missing_or_not_empty ["ID   1.1.1.1"; "DE"; "DR   "; "//"]).
  vm_compute. left.
Defined.

End ParserMore.

(** ** Record parser: the accession field *)

Section AccessionField.
Import PyStr Regex Tokens Parser Entries Views.

Lemma forallb_Forall_true {A} (f : A -> bool) l :
  forallb f l = true <-> Forall (fun c => f c = true) l.
Proof.
  induction l as [|x l IH]; simpl.
  - split; [constructor|done].
  - rewrite andb_true_iff, Forall_cons, IH. done.
Qed.

Lemma dr_accessions_shaped content acc :
  acc ∈ dr_accessions content -> accession_shaped acc.
Proof.
  rewrite dr_accessions_between. unfold accessions_between.
  intros [Hps (t & -> & [Hshape _]%list_elem_of_filter)%list_elem_of_fmap]%list_elem_of_filter.
  unfold accession_shaped. rewrite chars_str. unfold shape6 in Hshape.
  apply andb_true_iff in Hshape as [Hlen Hall].
  split_and!; [by apply Nat.eqb_eq|by apply forallb_Forall_true|done].
Qed.

(** X8: every accession taken from a [DR] line has exactly six
    characters, all of them uppercase letters or digits, and does not
    start with ["PS"]. *)
Theorem extracted_accessions_are_shaped content acc :
  acc ∈ dr_accessions content ->
  length (chars acc) = 6
  /\ Forall (fun c => is_upper_digit c = true) (chars acc)
  /\ startswith "PS" acc = false.
Proof. apply dr_accessions_shaped. Qed.

Lemma extracted_accessions_are_shaped_witness :
  length (chars "P00330") = 6
  /\ Forall (fun c => is_upper_digit c = true) (chars "P00330")
  /\ startswith "PS" "P00330" = false.
Proof.
  apply (extracted_accessions_are_shaped "P00330, ADH1_YEAST ;  PS00001, X ;").
  vm_compute. left.
Defined.

Lemma upper_digit_not_space c : is_upper_digit c = true -> is_space c = false.
Proof.
  destruct c as [b0 b1 b2 b3 b4 b5 b6 b7].
  destruct b0, b1, b2, b3, b4, b5, b6, b7; vm_compute; congruence.
Qed.

Lemma upper_digit_not_comma c : is_upper_digit c = true -> c <> comma.
Proof. intros H ->. vm_compute in H. discriminate. Qed.

Lemma dropwhile_keeps p l :
  (exists c, c ∈ l /\ p c = false) -> exists c, c ∈ dropwhile p l /\ p c = false.
Proof.
  induction l as [|x l IH]; intros (c & Hc & Hp); [by apply elem_of_nil in Hc|].
  simpl. destruct (p x) eqn:Hx.
  - apply IH. exists c. split; [|done].
    apply elem_of_cons in Hc as [->|Hc]; [congruence|done].
  - exists x. split; [left|done].
Qed.

(** A text with a character that is not whitespace is not blank. *)
Lemma strip_not_empty s :
  (exists c, c ∈ chars s /\ is_space c = false) -> strip s <> "".
Proof.
  intros H. apply dropwhile_keeps in H as (c & Hc & Hp).
  assert (exists c, c ∈ rev (dropwhile is_space (chars s)) /\ is_space c = false) as H.
  { exists c. split; [|done]. by rewrite list_elem_of_In, <- in_rev, <- list_elem_of_In. }
  apply dropwhile_keeps in H as (d & Hd & _).
  unfold strip, rdropwhile. intros Hs.
  assert (rev (dropwhile is_space (rev (dropwhile is_space (chars s)))) = []) as Hnil
    by (by rewrite <- (chars_str (rev _)), Hs).
  rewrite list_elem_of_In, in_rev, Hnil in Hd. done.
Qed.

Lemma shaped_not_blank acc : accession_shaped acc -> strip acc <> "" /\ acc <> "".
Proof.
  intros (Hlen & Hall & _).
  destruct (chars acc) as [|c l] eqn:E; [done|].
  inversion Hall as [|? ? Hc _]; subst. split.
  - apply strip_not_empty. exists c. rewrite E. split; [left|].
    by apply upper_digit_not_space.
  - intros ->. done.
Qed.

Lemma shaped_comma_free acc : accession_shaped acc -> comma ∉ chars acc.
Proof.
  intros (_ & Hall & _) Hin. rewrite Forall_forall in Hall.
  by apply Hall, upper_digit_not_comma in Hin.
Qed.

Lemma shaped_join_not_empty a accs :
  Forall accession_shaped (a :: accs) -> join "," (a :: accs) <> "".
Proof.
  intros Hall. inversion Hall as [|? ? Ha _]; subst.
  apply shaped_not_blank in Ha as [_ Ha].
  destruct a as [|c a]; [done|]. unfold join. by destruct accs.
Qed.

(** X9: the accession field of every emitted row is missing or the
    comma-joined text of a non-empty list of well-formed accessions (six
    characters of [[A-Z0-9]], not starting with ["PS"]), and splitting
    the text on commas gives exactly these accessions back: no accession
    of the field holds a comma or is cut by one. *)
Theorem accession_field_is_joined_accessions lines r :
  r ∈ parse_enzyme_dat lines ->
  exists accs,
    Forall accession_shaped accs
    /\ row_UniProt_IDs r = or_none (join "," accs)
    /\ (row_UniProt_IDs r = None <-> accs = [])
    /\ (forall text, row_UniProt_IDs r = Some text -> split_on comma text = accs).
Proof.
  revert r. apply Forall_forall.
  apply (parse_rows_inv (Forall accession_shaped)).
  - constructor.
  - intros accs content Haccs. apply Forall_app. split; [done|].
    apply Forall_forall. intros acc. apply dr_accessions_shaped.
  - intros cur Hcur. exists (UniProt_IDs cur). unfold row_of. cbn [row_UniProt_IDs].
    split; [done|]. split; [done|].
    destruct (UniProt_IDs cur) as [|a accs]; [done|].
    pose proof (shaped_join_not_empty a accs Hcur) as Hne.
    unfold or_none. rewrite bool_decide_false by done. split; [done|].
    intros text Heq. injection Heq as <-. apply (split_on_join (a :: accs)); [done|].
    eapply Forall_impl; [exact Hcur|]. apply shaped_comma_free.
Qed.

Lemma accession_field_is_joined_accessions_witness :
  exists accs,
    Forall accession_shaped accs
    /\ Some "P00330,P00331" = or_none (join "," accs)
    /\ (Some "P00330,P00331" = None <-> accs = [])
    /\ (forall text, Some "P00330,P00331" = Some text -> split_on comma text = accs).
Proof.
  apply (accession_field_is_joined_accessions
           ["ID   1.1.1.1"; "DR   P00330, ADH1_YEAST ;  P00331, ADH2_YEAST ;"; "//"]
           (Row (Some "1.1.1.1") None None None None (Some "P00330,P00331"))).
  vm_compute. left.
Defined.

End AccessionField.

(** ** Batch fetcher: further properties *)

Section ChunkFacts.
Import PyStr Pandas Fetcher.

Lemma chunks_of_concat k : 0 < k -> forall m (items : list string),
  length items <= m * k ->
  List.concat ((fun i => take k (drop i items)) <$> ((fun j => j * k) <$> seq 0 m))
  = items.
Proof.
  intros Hk. induction m as [|m IH]; intros items Hlen.
  - destruct items; [done|simpl in Hlen; lia].
  - transitivity (take k items ++ drop k items); [|apply take_drop].
    cbn [seq fmap list_fmap List.concat]. rewrite drop_0. f_equal.
    etransitivity; [|apply (IH (drop k items)); rewrite length_drop; lia].
    f_equal. rewrite <- fmap_S_seq, <- !list_fmap_compose.
    apply list_fmap_ext. intros ? j _. cbn. rewrite drop_drop. f_equal.
Qed.

Lemma ceil_div_bounds n k :
  0 < k -> n <= (n + k - 1) `div` k * k /\ (n + k - 1) `div` k * k < n + k.
Proof.
  intros Hk. pose proof (Nat.div_mod_eq (n + k - 1) k) as Hdm.
  pose proof (Nat.mod_upper_bound (n + k - 1) k) as Hm. nia.
Qed.

Lemma chunk_list_positive (items : list string) (chunk_size : Z) :
  (0 < chunk_size)%Z ->
  let k := Z.to_nat chunk_size in
  let m := (length items + k - 1) `div` k in
  chunk_list items chunk_size
  = Ok ((fun i => take k (drop i items)) <$> ((fun j => j * k) <$> seq 0 m)).
Proof.
  intros Hpos. unfold chunk_list, range0.
  rewrite bool_decide_false by lia. rewrite bool_decide_false by lia. done.
Qed.

Lemma chunk_list_pieces (items : list string) (chunk_size : Z) :
  (0 < chunk_size)%Z ->
  exists chunks,
    chunk_list items chunk_size = Ok chunks
    /\ List.concat chunks = items
    /\ Forall (fun c => 0 < length c <= Z.to_nat chunk_size) chunks
    /\ (forall i c, chunks !! i = Some c -> S i < length chunks ->
          length c = Z.to_nat chunk_size).
Proof.
  intros Hpos. eexists. split; [by apply chunk_list_positive|].
  set (k := Z.to_nat chunk_size). set (m := (length items + k - 1) `div` k).
  assert (0 < k) as Hk by (unfold k; lia).
  destruct (ceil_div_bounds (length items) k Hk) as [Hlo Hhi]. fold m in Hlo, Hhi.
  assert (forall i c,
            ((fun i => take k (drop i items)) <$> ((fun j => j * k) <$> seq 0 m)) !! i
              = Some c -> i < m /\ c = take k (drop (i * k) items)) as Hlook.
  { intros i c. rewrite !list_lookup_fmap.
    destruct (seq 0 m !! i) as [j|] eqn:E; [|done].
    apply lookup_seq in E as [-> Hi]. cbn. by intros [= <-]. }
  split_and!.
  - by apply chunks_of_concat.
  - apply Forall_forall. intros c (i & Hc)%list_elem_of_lookup.
    apply Hlook in Hc as [Hi ->]. rewrite length_take, length_drop. nia.
  - intros i c Hc Hi. rewrite !length_fmap, length_seq in Hi.
    apply Hlook in Hc as [_ ->]. rewrite length_take, length_drop. nia.
Qed.

(** X13: for a positive chunk size the chunks are a partition of the
    list into consecutive pieces: concatenated they give the list back,
    none is empty, none is longer than the chunk size and all but the
    last have exactly that size. *)
Theorem chunk_list_partition (items : list string) (chunk_size : Z) :
  (0 < chunk_size)%Z ->
  exists chunks,
    chunk_list items chunk_size = Ok chunks
    /\ List.concat chunks = items
    /\ Forall (fun c => 0 < length c <= Z.to_nat chunk_size) chunks
    /\ (forall i c, chunks !! i = Some c -> S i < length chunks ->
          length c = Z.to_nat chunk_size).
Proof. apply chunk_list_pieces. Qed.

Lemma chunk_list_partition_witness :
  exists chunks,
    chunk_list ["P00330"; "P00331"; "P00332"; "P00333"; "P00334"] 2 = Ok chunks
    /\ List.concat chunks = ["P00330"; "P00331"; "P00332"; "P00333"; "P00334"].
Proof.
  destruct (chunk_list_partition ["P00330"; "P00331"; "P00332"; "P00333"; "P00334"] 2)
    as (chunks & H1 & H2 & _); [done|].
  exists chunks. split; assumption.
Defined.

End ChunkFacts.

Section NormalizeTotal.
Import PyStr Pandas Fetcher.



Section Service.
Variable http_get : string -> http_outcome.
Variable read_csv : string -> res DataFrame.

#[local] Abbreviation fetch_uniprot_batch := (fetch_uniprot_batch http_get read_csv).
#[local] Abbreviation fetch_all := (fetch_all http_get read_csv).
#[local] Abbreviation chunk_fails := (chunk_fails http_get).
#[local] Abbreviation download_uniprot_batch := (download_uniprot_batch http_get read_csv).


(** X14: a chunk size that is not positive fetches nothing: zero raises
    [ValueError] (the step of a range), and a negative size gives no
    chunk at all, so that the download ends without a table and without
    an error, whatever the accessions. *)
Theorem chunk_size_not_positive uniprot_id chunk_size :
  (chunk_size <= 0)%Z ->
  download_uniprot_batch uniprot_id chunk_size
  = if bool_decide (chunk_size = 0%Z) then Raise ValueError else Ok None.
Proof.
  intros Hle. unfold Fetcher.download_uniprot_batch, chunk_list, range0.
  case_bool_decide; [done|].
  rewrite bool_decide_true by lia. done.
Qed.

Lemma fetch_all_failed chunks :
  Forall chunk_fails chunks -> fetch_all chunks = Ok [].
Proof.
  induction 1 as [|c chunks Hc _ IH]; [done|].
  by rewrite fetch_all_cons_failed.
Qed.

(** X19: when every chunk fails, the download ends without a table and
    without an error. *)
Theorem all_chunks_failed uniprot_id chunk_size :
  chunk_size <> 0%Z ->
  (forall chunk, chunk_fails chunk) ->
  download_uniprot_batch uniprot_id chunk_size = Ok None.
Proof.
  intros Hsize Hfail. unfold Fetcher.download_uniprot_batch.
  destruct (chunk_list _ chunk_size) as [chunks|e] eqn:E.
  - cbn [bind]. rewrite fetch_all_failed; [done|].
    apply Forall_forall. intros c _. apply Hfail.
  - unfold chunk_list, range0 in E. rewrite bool_decide_false in E by done.
    by case_bool_decide.
Qed.

Lemma fetch_all_app_raise pre chunk post dfs e :
  fetch_all pre = Ok dfs -> fetch_uniprot_batch chunk = Raise e ->
  fetch_all (pre ++ chunk :: post) = Raise e.
Proof.
  revert dfs. induction pre as [|c pre IH]; intros dfs Hpre Hchunk.
  - cbn. by rewrite Hchunk.
  - cbn in Hpre |- *. destruct (Fetcher.fetch_uniprot_batch _ _ c) as [d|]; [|done].
    cbn [bind] in Hpre |- *.
    destruct (Fetcher.fetch_all _ _ pre) as [dfs'|] eqn:E; [|done].
    by rewrite (IH dfs').
Qed.

(** X20: a body that cannot be parsed is not a tolerated failure: the
    exception of [pd.read_csv] for one chunk ends the whole download,
    and the tables of the chunks fetched before it are lost. *)
Theorem unparsable_body_aborts pre chunk post dfs text e :
  fetch_all pre = Ok dfs ->
  chunk <> [] ->
  http_get (build_accession_query chunk) = Response 200 text ->
  strip text <> "" ->
  read_csv (strip text) = Raise e ->
  fetch_all (pre ++ chunk :: post) = Raise e
  /\ forall uniprot_id chunk_size,
       chunk_list (Reconciler.sorted (drop_dup_by id (omap id uniprot_id))) chunk_size
         = Ok (pre ++ chunk :: post) ->
       download_uniprot_batch uniprot_id chunk_size = Raise e.
Proof.
  intros Hpre Hne Hget Htext Hcsv.
  assert (fetch_uniprot_batch chunk = Raise e) as Hchunk.
  { rewrite (fetch_uniprot_batch_success _ _ chunk text) by done. by rewrite Hcsv. }
  assert (fetch_all (pre ++ chunk :: post) = Raise e) as Hall
    by (by eapply fetch_all_app_raise).
  split; [done|]. intros uniprot_id chunk_size Hchunks.
  unfold Fetcher.download_uniprot_batch. rewrite Hchunks. cbn [bind].
  by rewrite Hall.
Qed.

Lemma download_chunks uniprot_id chunk_size :
  (0 < chunk_size)%Z ->
  exists chunks,
    chunk_list (Reconciler.sorted (drop_dup_by id (omap id uniprot_id))) chunk_size
      = Ok chunks
    /\ download_uniprot_batch uniprot_id chunk_size = bind (fetch_all chunks) collect
    /\ (forall x, x ∈ List.concat chunks <-> Some x ∈ uniprot_id)
    /\ NoDup (List.concat chunks)
    /\ Sorted Reconciler.str_le (List.concat chunks)
    /\ Forall (fun c => c <> []) chunks.
Proof.
  intros Hpos. unfold Fetcher.download_uniprot_batch.
  set (ids := Reconciler.sorted (drop_dup_by id (omap id uniprot_id))).
  destruct (chunk_list_pieces ids chunk_size Hpos) as (chunks & -> & Hcat & Hlen & _).
  exists chunks. cbn [bind]. rewrite Hcat. split_and!.
  - done.
  - done.
  - intros x. unfold ids. rewrite sorted_elem, drop_dup_by_id_elem, list_elem_of_omap.
    split; [intros ([y|] & Hy & [= ->]); done|eauto].
  - apply sorted_NoDup, drop_dup_by_id_NoDup.
  - apply Sorted_merge_sort. apply _.
  - eapply Forall_impl; [exact Hlen|]. intros c [Hc _] ->. simpl in Hc. lia.
Qed.

(** X17: for a positive chunk size, the chunks the loop of the download
    runs over, which are the sorted distinct accessions of the column
    cut by [chunk_list], are not empty and hold, taken together, every
    accession of the column that is not missing exactly once, in
    increasing order. *)
Theorem chunks_hold_each_accession_once uniprot_id chunk_size :
  (0 < chunk_size)%Z ->
  exists chunks,
    chunk_list (Reconciler.sorted (drop_dup_by id (omap id uniprot_id))) chunk_size
      = Ok chunks
    /\ download_uniprot_batch uniprot_id chunk_size = bind (fetch_all chunks) collect
    /\ (forall x, x ∈ List.concat chunks <-> Some x ∈ uniprot_id)
    /\ NoDup (List.concat chunks)
    /\ Sorted Reconciler.str_le (List.concat chunks)
    /\ Forall (fun c => c <> []) chunks.
Proof. apply download_chunks. Qed.

End Service.

Import Samples MoreSamples.

Lemma chunk_size_not_positive_witness :
  download_uniprot_batch sample_get sample_csv [Some "P00330"; Some "P00331"] (-5)
  = Ok None.
Proof. apply (chunk_size_not_positive sample_get sample_csv). done. Defined.

Lemma all_chunks_failed_witness :
  download_uniprot_batch down_get sample_csv [Some "P00330"; Some "P00331"] 1 = Ok None.
Proof. apply (all_chunks_failed down_get sample_csv); [done|]. intros chunk. exact I. Defined.

Lemma unparsable_body_aborts_witness :
  fetch_all sample_get broken_csv [["P00332"]; ["P00330"]; ["P00331"]] = Raise ParserError.
Proof.
  apply (unparsable_body_aborts sample_get broken_csv
           [["P00332"]] ["P00330"] [["P00331"]] [] "Entry Organism Sequence" ParserError);
    [reflexivity|discriminate|reflexivity|vm_compute; discriminate|reflexivity].
Defined.

Lemma chunks_hold_each_accession_once_witness :
  exists chunks,
    chunk_list
      (Reconciler.sorted
         (drop_dup_by id
            (omap id [Some "P00331"; None; Some "P00330"; Some "P00331"; Some "P00332"])))
      2 = Ok chunks
    /\ List.concat chunks = ["P00330"; "P00331"; "P00332"]
    /\ NoDup (List.concat chunks).
Proof.
  destruct (chunks_hold_each_accession_once sample_get sample_csv
              [Some "P00331"; None; Some "P00330"; Some "P00331"; Some "P00332"] 2)
    as (chunks & H1 & _ & _ & H2 & _); [done|].
  exists chunks. split; [exact H1|]. split; [|exact H2].
  vm_compute in H1. injection H1 as <-. reflexivity.
Defined.

End NormalizeTotal.

(** ** Reconciler: further properties *)

Section ReconcilerMore.
Import Pandas Reconciler.

(** X22: the reconciler reports nothing exactly when every requested id
    was retrieved; in general every requested id is either retrieved or
    reported, never both. *)
Theorem nothing_missing_iff_complete (requested retrieved : gset string) :
  (missing requested retrieved = [] <-> requested ⊆ retrieved)
  /\ (forall x, x ∈ requested ->
        (x ∈ retrieved /\ (x ∉ missing requested retrieved))
        \/ ((x ∉ retrieved) /\ x ∈ missing requested retrieved)).
Proof.
  split.
  - split.
    + intros Hnil x Hx. destruct (decide (x ∈ retrieved)) as [|Hn]; [done|].
      assert (x ∈ missing requested retrieved) as Hin by (by apply missing_elem).
      rewrite Hnil in Hin. by apply elem_of_nil in Hin.
    + intros Hall. apply elem_of_nil_inv. intros x Hx.
      apply missing_elem in Hx as [Hp Hu]. by apply Hu, Hall.
  - intros x Hx. rewrite missing_elem.
    destruct (decide (x ∈ retrieved)); [left|right]; tauto.
Qed.

(** X23: the second pass.  A larger set of retrieved ids never adds to
    the report, and once a further set holds every id reported after the
    first pass, nothing is reported for the two sets together. *)
Theorem second_pass_closes_the_gap (requested first second : gset string) :
  (forall x, x ∈ missing requested (first ∪ second) -> x ∈ missing requested first)
  /\ ((forall x, x ∈ missing requested first -> x ∈ second) ->
      missing requested (first ∪ second) = []).
Proof.
  split.
  - intros x. rewrite !missing_elem, elem_of_union. tauto.
  - intros Hsecond. apply elem_of_nil_inv. intros x.
    rewrite missing_elem, elem_of_union. intros [Hp Hn].
    apply Hn. right. apply Hsecond. apply missing_elem. tauto.
Qed.

End ReconcilerMore.

(** ** Merger: further properties *)

Section MergerMore.
Import Pandas Merger MasterViews.

Lemma filter_key_unique {A K} `{EqDecision K} (key : A -> K) (l : list A) k :
  NoDup (key <$> l) -> length (filter (fun x => key x = k) l) <= 1.
Proof.
  induction l as [|x l IH]; intros Hnd; [simpl; lia|].
  rewrite fmap_cons in Hnd. apply NoDup_cons in Hnd as [Hx Hnd].
  destruct (decide (key x = k)) as [<-|Hne].
  - rewrite filter_cons_True by done.
    assert (filter (fun y => key y = key x) l = []) as ->; [|simpl; lia].
    apply elem_of_nil_inv. intros y [Hy Hin]%list_elem_of_filter.
    apply Hx. rewrite <- Hy. by apply list_elem_of_fmap_2.
  - rewrite filter_cons_False by done. by apply IH.
Qed.

(** With at most one match for every key, a left join has one row for
    every row of the left table. *)
Lemma left_join_unique {L R K O} `{EqDecision K} (key_l : L -> K) (key_r : R -> K)
    (combine : L -> option R -> O) left right :
  NoDup (key_r <$> right) ->
  left_join key_l key_r combine left right
  = (fun l => combine l (head (filter (fun r => key_r r = key_l l) right))) <$> left.
Proof.
  intros Hnd. induction left as [|l left IH]; [done|].
  change (left_join key_l key_r combine (l :: left) right)
    with (match filter (fun r => key_r r = key_l l) right with
          | [] => [combine l None]
          | ms => (fun r => combine l (Some r)) <$> ms
          end ++ left_join key_l key_r combine left right).
  rewrite IH, fmap_cons.
  pose proof (filter_key_unique key_r right (key_l l) Hnd) as Hlen.
  destruct (filter (fun r => key_r r = key_l l) right) as [|m [|m' ms]];
    simpl in Hlen; [done|done|lia].
Qed.

Lemma join_tables_unique enzyme_raw pairs uniprot_rows :
  NoDup (Parser.row_EC_number <$> enzyme_raw) ->
  NoDup (UniProt_ID <$> uniprot_rows) ->
  join_tables enzyme_raw pairs uniprot_rows
  = joined_row (drop_dup_by id (to_meta <$> enzyme_raw)) uniprot_rows <$> pairs.
Proof.
  intros Hraw Huni.
  assert (NoDup (meta_EC_number <$> drop_dup_by id (to_meta <$> enzyme_raw))) as Hmeta.
  { apply (sublist_NoDup _ (meta_EC_number <$> (to_meta <$> enzyme_raw))).
    - rewrite <- list_fmap_compose. exact Hraw.
    - apply fmap_sublist, drop_dup_by_sublist. }
  unfold join_tables.
  rewrite (left_join_unique Expander.EC_number meta_EC_number) by done.
  rewrite (left_join_unique _ UniProt_ID) by done.
  rewrite <- list_fmap_compose. apply list_fmap_ext. intros ? p _. reflexivity.
Qed.

(** X24: when no id occurs twice in the classification table and no
    accession twice in the sequence table, the joins neither repeat nor
    drop a pair: the joined table has the pairs of the pair table, in
    order, and the master table those of them whose accession has a
    sequence that is not empty; so the number of dropped rows is the
    number of pairs without such a sequence. *)
Theorem unique_keys_keep_pairs enzyme_raw pairs uniprot_rows :
  NoDup (Parser.row_EC_number <$> enzyme_raw) ->
  NoDup (UniProt_ID <$> uniprot_rows) ->
  pair_of <$> join_tables enzyme_raw pairs uniprot_rows = pairs
  /\ pair_of <$> merge_enzyme_uniprot enzyme_raw pairs uniprot_rows
     = filter (sequenced uniprot_rows) pairs
  /\ length (join_tables enzyme_raw pairs uniprot_rows)
     - length (merge_enzyme_uniprot enzyme_raw pairs uniprot_rows)
     = length (filter (fun p => ~ sequenced uniprot_rows p) pairs).
Proof.
  intros Hraw Huni. unfold merge_enzyme_uniprot.
  rewrite join_tables_unique by done.
  set (row := joined_row _ uniprot_rows).
  assert (forall p, pair_of (row p) = p) as Hpair by (by intros []).
  assert (forall p, has_sequence (row p) <-> sequenced uniprot_rows p) as Hseq by done.
  assert (pair_of <$> (row <$> pairs) = pairs) as Hjoin.
  { rewrite <- list_fmap_compose. rewrite <- (list_fmap_id pairs) at 2.
    apply list_fmap_ext. intros ? p _. apply Hpair. }
  assert (pair_of <$> filter has_sequence (row <$> pairs)
          = filter (sequenced uniprot_rows) pairs) as Hmerge.
  { rewrite filter_fmap, <- list_fmap_compose.
    rewrite (list_filter_iff _ (sequenced uniprot_rows)) by apply Hseq.
    rewrite <- (list_fmap_id (filter _ pairs)) at 2.
    apply list_fmap_ext. intros ? p _. apply Hpair. }
  split_and!; [done|done|].
  rewrite <- (length_fmap pair_of (filter _ _)), Hmerge, length_fmap.
  clear. induction pairs as [|p pairs IH]; [done|].
  destruct (decide (sequenced uniprot_rows p)).
  - rewrite filter_cons_True, filter_cons_False by tauto.
    pose proof (length_filter (sequenced uniprot_rows) pairs). simpl in *. lia.
  - rewrite filter_cons_False, filter_cons_True by tauto.
    pose proof (length_filter (sequenced uniprot_rows) pairs). simpl in *. lia.
Qed.

Lemma unique_keys_keep_pairs_witness :
  pair_of <$> merge_enzyme_uniprot
    [Parser.Row (Some "1.1.1.1") (Some "alcohol dehydrogenase.") None None None
                (Some "P00330,P00331,P00332")]
    [Expander.Pair (Some "1.1.1.1") (Some "P00330");
     Expander.Pair (Some "1.1.1.1") (Some "P00331");
     Expander.Pair (Some "1.1.1.1") (Some "P00332")]
    [Uniprot (Some "P00330") (Some "MSIPE") None None None None;
     Uniprot (Some "P00331") None None None None None]
  = [Expander.Pair (Some "1.1.1.1") (Some "P00330")].
Proof.
  destruct (unique_keys_keep_pairs
    [Parser.Row (Some "1.1.1.1") (Some "alcohol dehydrogenase.") None None None
                (Some "P00330,P00331,P00332")]
    [Expander.Pair (Some "1.1.1.1") (Some "P00330");
     Expander.Pair (Some "1.1.1.1") (Some "P00331");
     Expander.Pair (Some "1.1.1.1") (Some "P00332")]
    [Uniprot (Some "P00330") (Some "MSIPE") None None None None;
     Uniprot (Some "P00331") None None None None None]) as (_ & -> & _).
  - apply (bool_decide_unpack _). vm_compute. exact I.
  - apply (bool_decide_unpack _). vm_compute. exact I.
  - vm_compute. reflexivity.
Defined.

End MergerMore.

(** ** Record parser: files of closed entries *)

Section ClosedEntries.
Import PyStr Regex Tokens Parser Entries Views.

Lemma step_filler rows l : filler_line l -> step (fresh, rows) l = (fresh, rows).
Proof.
  intros [Hend|Hign]; [|by apply step_ignored].
  unfold step. unfold is_end_line, line_code in Hend.
  case_bool_decide; [done|]. by rewrite Hend.
Qed.

Lemma fold_step_filler ls : forall rows,
  Forall filler_line ls -> fold_left step ls (fresh, rows) = (fresh, rows).
Proof.
  induction ls as [|l ls IH]; intros rows Hls; [done|].
  inversion Hls; subst. cbn [fold_left]. rewrite step_filler by done. by apply IH.
Qed.

Lemma fold_step_block b rows :
  closed_block b ->
  fold_left step (block_lines b) (fresh, rows) = (fresh, rows ++ [block_row b]).
Proof.
  intros (Hid & [i Hi] & Hbody & Hend & Htrailer). unfold block_lines.
  cbn [fold_left]. rewrite fold_left_app. cbn [fold_left].
  assert (step (fresh, rows) (block_id_line b) = (set_EC_number (Some i) fresh, rows)) as ->.
  { unfold step. unfold is_id_line, line_code in Hid.
    case_bool_decide as Hblank; [by rewrite Hblank in Hid|].
    rewrite bool_decide_true by done. fold (line_content (block_id_line b)).
    fold (line_id (block_id_line b)). by rewrite Hi. }
  rewrite (fold_step_body (block_body b)) by done. cbn [fst snd].
  assert (step (collect_body (set_EC_number (Some i) fresh) (block_body b), rows)
               (block_end_line b)
          = (fresh, rows ++ [block_row b])) as ->.
  { unfold step. unfold is_end_line, line_code in Hend.
    case_bool_decide as Hblank; [by rewrite Hblank in Hend|]. rewrite Hend.
    unfold block_row. by rewrite Hi. }
  by apply fold_step_filler.
Qed.

Lemma fold_step_blocks blocks : forall rows,
  Forall closed_block blocks ->
  fold_left step (flat_map block_lines blocks) (fresh, rows)
  = (fresh, rows ++ (block_row <$> blocks)).
Proof.
  induction blocks as [|b blocks IH]; intros rows Hall.
  - cbn. by rewrite app_nil_r.
  - inversion Hall; subst. cbn [flat_map]. rewrite fold_left_app.
    rewrite fold_step_block by done. rewrite IH by done.
    by rewrite <- app_assoc.
Qed.

(** X5: a file made of a header of filler lines and of closed entries
    (an [ID] line with an id, a body, a [//] line, filler lines) yields
    one row per entry, in order, and every row holds the id and the
    contents of the lines of its own entry and nothing else. *)
Theorem closed_entries_rows header blocks :
  Forall filler_line header ->
  Forall closed_block blocks ->
  parse_enzyme_dat (header ++ flat_map block_lines blocks) = block_row <$> blocks.
Proof.
  intros Hheader Hblocks. unfold parse_enzyme_dat. rewrite fold_left_app.
  unfold init. rewrite fold_step_filler by done.
  by rewrite fold_step_blocks.
Qed.

Lemma closed_entries_rows_witness :
  parse_enzyme_dat
    (["CC   ENZYME nomenclature database"; "//"]
       ++ flat_map block_lines
            [Block "ID   1.1.1.1"
                   ["DE   alcohol dehydrogenase."; "DR   P00330, ADH1_YEAST ;"] "//" [""];
             Block "ID   1.1.1.2" ["DE   alcohol dehydrogenase (NADP(+))."] "//" []])
  = [Row (Some "1.1.1.1") (Some "alcohol dehydrogenase.") None None None (Some "P00330");
     Row (Some "1.1.1.2") (Some "alcohol dehydrogenase (NADP(+)).") None None None None].
Proof.
  rewrite closed_entries_rows.
  - vm_compute. reflexivity.
  - apply (bool_decide_unpack _). vm_compute. exact I.
  - apply (bool_decide_unpack _). vm_compute. exact I.
Defined.

End ClosedEntries.

(** ** Pair expander: the table as a set *)

Section ExpanderMore.
Import PyStr Pandas Expander.

Lemma explode_uniprot_ids_elem df p :
  p ∈ explode_uniprot_ids df <->
  exists r, r ∈ df /\ p ∈ explode r /\ UniProt_ID p <> None /\ UniProt_ID p <> Some "".
Proof.
  unfold explode_uniprot_ids.
  rewrite drop_dup_by_id_elem, list_elem_of_filter, elem_of_flat_map. naive_solver.
Qed.

(** X12: the pair table depends on the records only as a set: two
    tables with the same records, in whatever order and however often
    repeated, give the same pairs up to their order. *)
Theorem explode_uniprot_ids_set df1 df2 :
  (forall r, r ∈ df1 <-> r ∈ df2) ->
  explode_uniprot_ids df1 ≡ₚ explode_uniprot_ids df2.
Proof.
  intros Hsame. apply NoDup_Permutation; try apply drop_dup_by_id_NoDup.
  intros p. rewrite !explode_uniprot_ids_elem.
  split; intros (r & Hr & H); exists r; split; try done; by apply Hsame.
Qed.

Lemma explode_uniprot_ids_set_witness :
  explode_uniprot_ids [Raw (Some "1.1.1.1") (Some "P00330,P00331");
                       Raw (Some "1.1.1.2") (Some "P00332")]
  ≡ₚ explode_uniprot_ids [Raw (Some "1.1.1.2") (Some "P00332");
                          Raw (Some "1.1.1.1") (Some "P00330,P00331");
                          Raw (Some "1.1.1.2") (Some "P00332")].
Proof. apply explode_uniprot_ids_set. intros r. set_solver. Defined.

End ExpanderMore.

(** ** Batch fetcher: the query of a chunk *)

Section QueryFacts.
Import PyStr Pandas Fetcher Views.

Lemma runs_join_or a : forall items cur,
  Forall (fun s => s <> "" /\ no_space s) (a :: items) ->
  runs_from gap cur (chars (join " OR " (a :: items)))
  = (cur ++ chars a) :: flat_map (fun s => [chars "OR"; chars s]) items.
Proof.
  intros items. revert a. induction items as [|b items IH]; intros a cur Hall.
  - inversion Hall as [|? ? [Ha Hsp] _]; subst. change (join " OR " [a]) with a.
    rewrite <- (app_nil_r (chars a)) at 1. rewrite runs_from_run.
    + cbn. destruct (cur ++ chars a) eqn:E; [|done].
      apply app_eq_nil in E as [_ E]. exfalso. apply Ha.
      by rewrite <- (str_chars a), E.
    + eapply Forall_impl; [exact Hsp|]. intros c Hc. unfold gap. by rewrite Hc.
  - inversion Hall as [|? ? [Ha Hsp] Hall']; subst.
    rewrite chars_join, runs_from_run.
    2:{ eapply Forall_impl; [exact Hsp|]. intros c Hc. unfold gap. by rewrite Hc. }
    change (chars " OR ") with (" "%char :: chars "OR" ++ [" "%char]).
    cbn [app runs_from]. change (gap " ") with false. cbv iota.
    change (chars "OR") with ["O"%char; "R"%char].
    cbn [app runs_from]. change (gap "O") with true. change (gap "R") with true.
    cbv iota. cbn [app]. change (gap " ") with false. cbv iota.
    rewrite (IH b []) by done. cbn [emit app flat_map].
    destruct (cur ++ chars a) eqn:E; [|done].
    apply app_eq_nil in E as [_ E]. exfalso. apply Ha.
    by rewrite <- (str_chars a), E.
Qed.

Lemma interleaved_inj (l1 l2 : list string) :
  flat_map (fun s => [chars "OR"; chars s]) l1
  = flat_map (fun s => [chars "OR"; chars s]) l2 -> l1 = l2.
Proof.
  revert l2. induction l1 as [|a l1 IH]; intros [|b l2] H; try done.
  cbn [flat_map app] in H. injection H as Hab H. f_equal.
  - by rewrite <- (str_chars a), <- (str_chars b), Hab.
  - by apply IH.
Qed.

Lemma clause_token acc :
  no_space acc -> "accession:" +:+ acc <> "" /\ no_space ("accession:" +:+ acc).
Proof.
  intros Hacc. split; [done|]. unfold no_space. rewrite chars_app.
  apply Forall_app. split; [|done]. repeat constructor.
Qed.

Lemma clauses_inj (accs1 accs2 : list string) :
  (fun acc => "accession:" +:+ acc) <$> accs1 = (fun acc => "accession:" +:+ acc) <$> accs2 ->
  accs1 = accs2.
Proof.
  revert accs2. induction accs1 as [|a l1 IH]; intros [|b l2] H; try done.
  rewrite !fmap_cons in H. injection H as Hab H. f_equal; [|by apply IH].
  cbn in Hab. by simplify_eq.
Qed.

Lemma query_not_empty a (l : list string) :
  join " OR " (("accession:" +:+ a) :: l) <> "".
Proof. unfold join. by destruct l. Qed.

Lemma build_accession_query_inj accs1 accs2 :
  Forall no_space accs1 -> Forall no_space accs2 ->
  build_accession_query accs1 = build_accession_query accs2 -> accs1 = accs2.
Proof.
  intros H1 H2 Hq. unfold build_accession_query in Hq. apply clauses_inj.
  assert (forall accs, Forall no_space accs ->
            Forall (fun s => s <> "" /\ no_space s)
                   ((fun acc => "accession:" +:+ acc) <$> accs)) as Hclauses.
  { intros accs Haccs. apply Forall_fmap. eapply Forall_impl; [exact Haccs|].
    intros acc. apply clause_token. }
  apply Hclauses in H1, H2.
  destruct accs1 as [|a1 l1], accs2 as [|a2 l2]; [done| | |].
  { rewrite fmap_cons in Hq. symmetry in Hq. by apply query_not_empty in Hq. }
  { rewrite fmap_cons in Hq. by apply query_not_empty in Hq. }
  rewrite !fmap_cons in *.
  assert (runs_from gap [] (chars (join " OR "
            (("accession:" +:+ a1) :: ((fun acc => "accession:" +:+ acc) <$> l1))))
          = runs_from gap [] (chars (join " OR "
            (("accession:" +:+ a2) :: ((fun acc => "accession:" +:+ acc) <$> l2)))))
    as Hruns by (by rewrite Hq).
  rewrite !runs_join_or in Hruns by done. injection Hruns as Ha Hl.
  f_equal.
  - apply (f_equal str) in Ha. rewrite !str_chars in Ha.
    change ("" +:+ a1) with a1 in Ha. change ("" +:+ a2) with a2 in Ha.
    by rewrite Ha.
  - by apply interleaved_inj.
Qed.

(** X15: the query determines the chunk: two lists of accessions without
    whitespace that give the same query are the same list. *)
Theorem query_determines_chunk accs1 accs2 :
  Forall no_space accs1 -> Forall no_space accs2 ->
  build_accession_query accs1 = build_accession_query accs2 -> accs1 = accs2.
Proof. apply build_accession_query_inj. Qed.

Lemma query_determines_chunk_witness :
  build_accession_query ["P00330"; "P00331"] = "accession:P00330 OR accession:P00331"
  /\ ["P00330"; "P00331"] = ["P00330"; "P00331"].
Proof.
  split; [reflexivity|].
  apply query_determines_chunk;
    [apply (bool_decide_unpack _); vm_compute; exact I
    |apply (bool_decide_unpack _); vm_compute; exact I
    |reflexivity].
Defined.

Lemma NoDup_pieces {A} (ls : list (list A)) :
  NoDup (List.concat ls) -> Forall (fun l => l <> []) ls -> NoDup ls.
Proof.
  induction ls as [|l ls IH]; intros Hnd Hne; [constructor|].
  inversion Hne as [|? ? Hl Hne']; subst. cbn in Hnd.
  apply NoDup_app in Hnd as (_ & Hdis & Hnd). apply NoDup_cons. split; [|by apply IH].
  intros Hin. destruct l as [|x l]; [done|].
  apply (Hdis x); [left|].
  apply list_elem_of_In, in_concat. exists (x :: l).
  split; [by apply list_elem_of_In|left; done].
Qed.

Section Service.
Variable http_get : string -> http_outcome.
Variable read_csv : string -> res DataFrame.

(** X18: for a positive chunk size and accessions without whitespace,
    the queries of the chunks the loop of the download runs over (the
    sorted distinct accessions of the column cut by [chunk_list]) are
    pairwise different. *)
Theorem chunk_queries_are_distinct uniprot_id chunk_size :
  (0 < chunk_size)%Z ->
  (forall x, Some x ∈ uniprot_id -> no_space x) ->
  exists chunks,
    chunk_list (Reconciler.sorted (drop_dup_by id (omap id uniprot_id))) chunk_size
      = Ok chunks
    /\ download_uniprot_batch http_get read_csv uniprot_id chunk_size
       = bind (fetch_all http_get read_csv chunks) collect
    /\ NoDup (build_accession_query <$> chunks).
Proof.
  intros Hpos Hsp.
  destruct (download_chunks http_get read_csv uniprot_id chunk_size Hpos)
    as (chunks & Hlist & Hd & Helem & Hnd & _ & Hne).
  exists chunks. split; [done|]. split; [done|].
  assert (forall c, c ∈ chunks -> Forall no_space c) as Hchunk.
  { intros c Hc. apply Forall_forall. intros x Hx. apply Hsp, Helem.
    apply list_elem_of_In, in_concat. exists c. by rewrite <- !list_elem_of_In. }
  apply NoDup_fmap_2_strong; [|by apply NoDup_pieces].
  intros c1 c2 Hc1 Hc2. apply build_accession_query_inj; by apply Hchunk.
Qed.

End Service.

Lemma chunk_queries_are_distinct_witness :
  exists chunks,
    chunk_list
      (Reconciler.sorted
         (drop_dup_by id (omap id [Some "P00331"; Some "P00330"; Some "P00332"])))
      2 = Ok chunks
    /\ build_accession_query <$> chunks
       = ["accession:P00330 OR accession:P00331"; "accession:P00332"]
    /\ NoDup (build_accession_query <$> chunks).
Proof.
  destruct (chunk_queries_are_distinct Samples.sample_get Samples.sample_csv
              [Some "P00331"; Some "P00330"; Some "P00332"] 2)
    as (chunks & H1 & _ & H2); [done| |].
  - intros x Hx. apply (bool_decide_unpack _).
    repeat (apply elem_of_cons in Hx as [Hx|Hx]; [injection Hx as ->; vm_compute; exact I|]).
    by apply elem_of_nil in Hx.
  - exists chunks. split; [exact H1|]. split; [|exact H2].
    vm_compute in H1. injection H1 as <-. reflexivity.
Defined.

End QueryFacts.
